(** * Xen HVM I/O request forwarding (xen/arch/x86/hvm/io.c)

    A shallow embedding of the I/O-request layer: the buffered ring
    producer [hvm_buffered_io_send], the dispatchers [send_pio_req],
    [send_mmio_req], [send_timeoffset_req], the completion routine
    [hvm_io_assist] and the passthrough port interceptor
    [dpci_ioport_intercept] with its two workers.

    C integers are [Z] with the wrap-around of their C type written out.
    The code runs in a small state monad over a [world]: the per-vCPU
    request slot, the per-vCPU emulation flags, the buffered ring page, the
    state owned by the collaborators, and the trace of the calls this file
    makes to them.  Locks and barriers are not modelled: the embedding is
    the sequential behaviour of one virtual CPU. *)

From stdpp Require Import base strings list.
From Stdlib Require Import ZArith Lia.

Local Open Scope Z_scope.

(** ** C integer types *)

(** Conversion to [unsigned int] / [uint32_t]. *)
Definition u32 (z : Z) : Z := z mod 2 ^ 32.

(** Conversion to [uint64_t] / [unsigned long] / [paddr_t]. *)
Definition u64 (z : Z) : Z := z mod 2 ^ 64.

(** Conversion to [int]. *)
Definition int32 (z : Z) : Z := (z + 2 ^ 31) mod 2 ^ 32 - 2 ^ 31.

(** Store into a bit-field of [w] bits. *)
Definition bitfield (w z : Z) : Z := z mod 2 ^ w.

(** C truth value of an integer. *)
Definition truthy (z : Z) : bool := negb (z =? 0).

(** ** Data model *)

(** Modelled from the spec: [ioreq_t], the I/O request record, declared
    in public/hvm/ioreq.h, which is not in the tree: "direction, kind,
    access width in bytes, address, repeat count, value or
    value-is-pointer flag, direction-of-repeat flag, per-slot I/O sequence
    counter, and a protocol state".  The fields are named as io.c uses
    them; the widths in the comments are those of the shared page, and
    the code below truncates to them where it stores. *)
Module ioreq.
Record t : Type := mk {
  addr : Z;         (* uint64_t: port or guest-physical address *)
  size : Z;         (* uint64_t: width in bytes *)
  count : Z;        (* uint64_t: repeat count *)
  data : Z;         (* uint64_t: value, or guest address of the value *)
  state : Z;        (* 4 bits *)
  data_is_ptr : Z;  (* 1 bit *)
  dir : Z;          (* 1 bit *)
  df : Z;           (* 1 bit *)
  type : Z;         (* uint8_t *)
  io_count : Z      (* uint64_t *)
}.

Definition set_state (s : Z) (p : t) : t :=
  mk (addr p) (size p) (count p) (data p) s
     (data_is_ptr p) (dir p) (df p) (type p) (io_count p).

Definition set_data (d : Z) (p : t) : t :=
  mk (addr p) (size p) (count p) d (state p)
     (data_is_ptr p) (dir p) (df p) (type p) (io_count p).

(** [memset] of the whole record to zero *)
Definition zero : t := mk 0 0 0 0 0 0 0 0 0 0.
End ioreq.
Abbreviation ioreq_t := ioreq.t.

(** Modelled from the spec: [buf_ioreq_t], one slot of the buffered ring
    (same header): "type, direction, log2 width code (0..3 for 1/2/4/8
    bytes), address (restricted to a 20-bit range), data (64-bit values
    spill into two consecutive slots)", the second slot taking the "high
    32 bits". *)
Module buf_ioreq.
Record t : Type := mk {
  type : Z;   (* uint8_t *)
  dir : Z;    (* 1 bit *)
  size : Z;   (* 2 bits: 0=>1, 1=>2, 2=>4, 3=>8 bytes *)
  addr : Z;   (* 20 bits *)
  data : Z    (* uint32_t *)
}.

Definition set_data (d : Z) (b : t) : t :=
  mk (type b) (dir b) (size b) (addr b) d.
End buf_ioreq.
Abbreviation buf_ioreq_t := buf_ioreq.t.

(** Modelled from the spec: [buffered_iopage_t], the ring page (same
    header): a "fixed-capacity circular array of Buffered Records with a
    monotonically increasing write pointer ... and read pointer".  Both
    pointers are taken to be [unsigned int]; they only ever grow and are
    reduced modulo the slot count when a slot is addressed. *)
Record buffered_iopage_t : Type := mk_buffered_iopage {
  read_pointer : Z;
  write_pointer : Z;
  buf_ioreq : list buf_ioreq_t
}.

(** The per-vCPU emulation flags, [v->arch.hvm_vcpu]. *)
Record hvm_vcpu_t : Type := mk_hvm_vcpu {
  io_in_progress : Z;
  io_completed : Z;
  io_data : Z;
  mmio_in_progress : Z
}.

(** Modelled from the spec: [struct g2m_ioport], declared with the IOMMU
    code, which is not in the tree: "a guest-port-range to host-port-range
    translation table entry".  The three fields are those io.c reads, all
    [unsigned int]. *)
Module g2m_ioport.
Record t : Type := mk {
  gport : Z;   (* unsigned int: first guest port *)
  mport : Z;   (* unsigned int: first host port *)
  np : Z       (* unsigned int: number of ports *)
}.
End g2m_ioport.
Abbreviation g2m_ioport_t := g2m_ioport.t.

(** What [hvm_emulate_one] leaves in [struct hvm_emulate_ctxt]. *)
Record hvm_emulate_ctxt : Type := mk_hvm_emulate_ctxt {
  exn_pending : Z;
  exn_vector : Z;
  exn_error_code : Z
}.

(** The constants of public/hvm/ioreq.h and of the emulator interface.
    The headers are not part of the tree, so the values are parameters. *)
Class ioreq_abi : Type := {
  IOREQ_BUFFER_SLOT_NUM : Z;
  STATE_IOREQ_NONE : Z;
  STATE_IOREQ_READY : Z;
  STATE_IORESP_READY : Z;
  IOREQ_READ : Z;
  IOREQ_WRITE : Z;
  IOREQ_TYPE_PIO : Z;
  IOREQ_TYPE_TIMEOFFSET : Z;
  X86EMUL_UNHANDLEABLE : Z;
  X86EMUL_EXCEPTION : Z
}.

(** [IOREQ_BUFFER_SLOT_NUM] is a positive [int] constant. *)
Definition slot_num_ok `{ioreq_abi} : Prop :=
  1 <= IOREQ_BUFFER_SLOT_NUM < 2 ^ 31.

(** ** Calls that leave this file *)

(** Every call to a collaborator, and every diagnostic, is recorded in
    the order the code makes it. *)
Inductive event : Type :=
| gdprintk (fmt : string)
| printk (fmt : string)
| call_hvm_portio_intercept
| call_hvm_mmio_intercept
| call_hvm_buffered_io_intercept
| call_hvm_send_assist_req
| call_domain_crash
| call_vcpu_end_shutdown_deferral
| call_hvm_emulate_prepare
| call_hvm_emulate_one
| call_hvm_inject_exception (vector error_code : Z)
| call_hvm_emulate_writeback
| call_inb (port : Z)
| call_inw (port : Z)
| call_inl (port : Z)
| call_outb (value port : Z)
| call_outw (value port : Z)
| call_outl (value port : Z)
| call_hvm_copy_to_guest_phys (paddr buf size : Z)
| call_hvm_copy_from_guest_phys (paddr size : Z).

(** An event is a host port access when it is one of the six port
    instructions. *)
Definition is_host_port_access (e : event) : bool :=
  match e with
  | call_inb _ | call_inw _ | call_inl _
  | call_outb _ _ | call_outw _ _ | call_outl _ _ => true
  | _ => false
  end.

Definition is_guest_copy (e : event) : bool :=
  match e with
  | call_hvm_copy_to_guest_phys _ _ _
  | call_hvm_copy_from_guest_phys _ _ => true
  | _ => false
  end.

Section World.

(** The state the collaborators own: host ports, guest memory, the
    emulator, the scheduler, the device-assignment tables. *)
Context {Env : Type}.

(** The state one virtual CPU's I/O path works on. *)
Record world : Type := mk_world {
  vio : ioreq_t;                  (* get_ioreq(current)->vp_ioreq *)
  hvm_vcpu : hvm_vcpu_t;          (* current->arch.hvm_vcpu *)
  buf_page : buffered_iopage_t;   (* domain's buf_ioreq.va *)
  env : Env;
  trace : list event
}.

Definition set_vio (p : ioreq_t) (w : world) : world :=
  mk_world p (hvm_vcpu w) (buf_page w) (env w) (trace w).
Definition set_hvm_vcpu (h : hvm_vcpu_t) (w : world) : world :=
  mk_world (vio w) h (buf_page w) (env w) (trace w).
Definition set_buf_page (pg : buffered_iopage_t) (w : world) : world :=
  mk_world (vio w) (hvm_vcpu w) pg (env w) (trace w).
Definition set_env (e : Env) (w : world) : world :=
  mk_world (vio w) (hvm_vcpu w) (buf_page w) e (trace w).
Definition set_trace (t : list event) (w : world) : world :=
  mk_world (vio w) (hvm_vcpu w) (buf_page w) (env w) t.

(** *** The state monad *)

Definition M (A : Type) : Type := world -> A * world.

Definition ret {A} (a : A) : M A := fun w => (a, w).
Definition bind {A B} (m : M A) (k : A -> M B) : M B :=
  fun w => let (a, w') := m w in k a w'.
Definition get : M world := fun w => (w, w).
Definition modify (f : world -> world) : M unit := fun w => (tt, f w).

(** Record one event at the end of the trace. *)
Definition emit (e : event) : M unit :=
  modify (fun w => set_trace (trace w ++ [e]) w).

(** Call a collaborator that works on the collaborators' state only. *)
Definition extcall {A} (e : event) (f : Env -> A * Env) : M A :=
  fun w => let (a, en) := f (env w) in
           (a, set_trace (trace w ++ [e]) (set_env en w)).

(** Call a collaborator that is handed the request slot or the vCPU and
    may change anything but the record of this file's own calls. *)
Definition extcall_world {A} (e : event) (f : world -> A * world) : M A :=
  fun w => let (a, w') := f w in
           (a, set_trace (trace w ++ [e]) w').

End World.

Arguments world : clear implicits.
Arguments M : clear implicits.

Declare Scope io_scope.
Delimit Scope io_scope with io.
Notation "x <- m ;; k" := (bind m (fun x => k))
  (at level 100, m at next level, right associativity) : io_scope.
Notation "m ;; k" := (bind m (fun _ => k))
  (at level 100, right associativity) : io_scope.

(** ** The buffered ring *)

Section BufferedRing.

Context `{abi : ioreq_abi} {Env : Type}.
Local Open Scope io_scope.

(** The [switch ( p->size )] of [hvm_buffered_io_send]: the two-bit
    width code for [bp.size] and the value of [qw], or [None] on the
    [default] branch. *)
Definition switch_size (sz : Z) : option (Z * Z) :=
  if sz =? 1 then Some (0, 0)
  else if sz =? 2 then Some (1, 0)
  else if sz =? 4 then Some (2, 0)
  else if sz =? 8 then Some (3, 1)
  else None.

(** [memcpy(&pg->buf_ioreq[idx], &bp, sizeof(bp))] *)
Definition memcpy_slot (idx : Z) (bp : buf_ioreq_t) : M Env unit :=
  modify (fun w =>
    let pg := buf_page w in
    set_buf_page
      (mk_buffered_iopage (read_pointer pg) (write_pointer pg)
         (<[Z.to_nat idx := bp]> (buf_ioreq pg))) w).

(** [pg->write_pointer += n], in [unsigned int]. *)
Definition advance_write_pointer (n : Z) : M Env unit :=
  modify (fun w =>
    let pg := buf_page w in
    set_buf_page
      (mk_buffered_iopage (read_pointer pg) (u32 (write_pointer pg + n))
         (buf_ioreq pg)) w).

(** [int hvm_buffered_io_send(ioreq_t *p)].  The slot count is an [int]
    and both pointers are [unsigned int], so the comparison and the
    remainder are taken in [unsigned int]. *)
Definition hvm_buffered_io_send (p : ioreq_t) : M Env Z :=
  if (ioreq.addr p >? 0xfffff) || truthy (ioreq.data_is_ptr p)
     || negb (ioreq.count p =? 1)
  then ret 0
  else
    match switch_size (ioreq.size p) with
    | None =>
        emit (gdprintk "unexpected ioreq size:%PRId64");;
        ret 0
    | Some (code, qw) =>
        let bp := buf_ioreq.mk (bitfield 8 (ioreq.type p))
                               (bitfield 1 (ioreq.dir p))
                               code
                               (bitfield 20 (ioreq.addr p))
                               (u32 (ioreq.data p)) in
        w <- get;;
        let pg := buf_page w in
        if u32 (write_pointer pg - read_pointer pg)
           >=? u32 (IOREQ_BUFFER_SLOT_NUM - qw)
        then ret 0
        else
          memcpy_slot (write_pointer pg mod u32 IOREQ_BUFFER_SLOT_NUM) bp;;
          (if truthy qw
           then
             let bp := buf_ioreq.set_data
                         (u32 (Z.shiftr (ioreq.data p) 32)) bp in
             memcpy_slot
               (u32 (write_pointer pg + 1) mod u32 IOREQ_BUFFER_SLOT_NUM) bp
           else ret tt);;
          advance_write_pointer (if truthy qw then 2 else 1);;
          ret 1
    end.

(** *** Vocabulary of the ring properties *)

(** A request that passes the shape test at the head of
    [hvm_buffered_io_send] and has one of the four widths. *)
Definition buffered_eligible (p : ioreq_t) : Prop :=
  ioreq.addr p < 2 ^ 20 /\ ioreq.data_is_ptr p = 0 /\ ioreq.count p = 1 /\
  (ioreq.size p = 1 \/ ioreq.size p = 2 \/ ioreq.size p = 4 \/
   ioreq.size p = 8).

#[global] Instance buffered_eligible_dec (p : ioreq_t) :
  Decision (buffered_eligible p).
Proof. unfold buffered_eligible. apply _. Defined.

(** Slots occupied: the pointer difference in [unsigned int]. *)
Definition used_slots (pg : buffered_iopage_t) : Z :=
  u32 (write_pointer pg - read_pointer pg).

(** Slots free: capacity less the slots occupied. *)
Definition free_slots (pg : buffered_iopage_t) : Z :=
  IOREQ_BUFFER_SLOT_NUM - used_slots pg.

(** Slots a record needs: two for an 8-byte access, one otherwise. *)
Definition slots_required (p : ioreq_t) : Z :=
  if ioreq.size p =? 8 then 2 else 1.

(** The bounded-occupancy invariant. *)
Definition ring_bounded (pg : buffered_iopage_t) : Prop :=
  used_slots pg <= IOREQ_BUFFER_SLOT_NUM.

(** The ring page holds [unsigned int] pointers and an array of
    [IOREQ_BUFFER_SLOT_NUM] slots. *)
Definition page_wf (pg : buffered_iopage_t) : Prop :=
  0 <= read_pointer pg < 2 ^ 32 /\ 0 <= write_pointer pg < 2 ^ 32 /\
  Z.of_nat (length (buf_ioreq pg)) = IOREQ_BUFFER_SLOT_NUM.

(** The slot the consumer finds at ring position [i]. *)
Definition slot_at (pg : buffered_iopage_t) (i : Z) : option buf_ioreq_t :=
  buf_ioreq pg !! Z.to_nat i.

End BufferedRing.

(** ** Collaborators *)

(** The functions this file calls and does not define.  A collaborator
    that is handed the request slot or the virtual CPU works on the whole
    [world]; the others work on the collaborators' own state. *)
Class collaborators (Env : Type) : Type := {
  hvm_portio_intercept : world Env -> Z * world Env;
  hvm_mmio_intercept : world Env -> Z * world Env;
  hvm_buffered_io_intercept : world Env -> Z * world Env;
  hvm_send_assist_req : world Env -> unit * world Env;
  domain_crash : Env -> unit * Env;
  vcpu_end_shutdown_deferral : Env -> unit * Env;
  hvm_emulate_one : world Env -> (Z * hvm_emulate_ctxt) * world Env;
  hvm_inject_exception : Z -> Z -> Z -> Env -> unit * Env;
  hvm_emulate_writeback : hvm_emulate_ctxt -> world Env -> unit * world Env;
  inb : Z -> Env -> Z * Env;
  inw : Z -> Env -> Z * Env;
  inl : Z -> Env -> Z * Env;
  outb : Z -> Z -> Env -> unit * Env;
  outw : Z -> Z -> Env -> unit * Env;
  outl : Z -> Z -> Env -> unit * Env;
  (* destination, the bytes of the source buffer, size; returns rc *)
  hvm_copy_to_guest_phys : Z -> Z -> Z -> Env -> Z * Env;
  (* source, size; returns rc and the bytes read, little-endian *)
  hvm_copy_from_guest_phys : Z -> Z -> Env -> (Z * Z) * Env;
  ioports_access_permitted : Env -> Z -> Z -> bool;
  g2m_ioport_list : Env -> list g2m_ioport_t
}.

(** ** Completion, dispatch and passthrough *)

Section Io.

Context `{abi : ioreq_abi} {Env : Type} {ext : collaborators Env}.
Local Open Scope io_scope.

(** [int handle_mmio(void)].  [hvm_emulate_one] stands for the emulator
    run on the context [hvm_emulate_prepare] set up. *)
Definition handle_mmio : M Env Z :=
  emit call_hvm_emulate_prepare;;
  r <- extcall_world call_hvm_emulate_one hvm_emulate_one;;
  let rc := fst r in
  let ctxt := snd r in
  if rc =? X86EMUL_UNHANDLEABLE then
    emit (gdprintk "MMIO emulation failed @ %04x:%lx: %02x %02x %02x %02x %02x %02x");;
    ret 0
  else
    (if rc =? X86EMUL_EXCEPTION then
       if truthy (exn_pending ctxt) then
         extcall (call_hvm_inject_exception (exn_vector ctxt)
                                            (exn_error_code ctxt))
                 (hvm_inject_exception (exn_vector ctxt)
                                       (exn_error_code ctxt) 0)
       else ret tt
     else ret tt);;
    extcall_world call_hvm_emulate_writeback (hvm_emulate_writeback ctxt);;
    modify (fun w =>
      let h := hvm_vcpu w in
      set_hvm_vcpu (mk_hvm_vcpu (io_in_progress h) (io_completed h)
                                (io_data h) (io_in_progress h)) w);;
    ret 1.

(** [void hvm_io_assist(void)].  Both arms end at the label [out]. *)
Definition hvm_io_assist : M Env unit :=
  w <- get;;
  (if negb (ioreq.state (vio w) =? STATE_IORESP_READY) then
     emit (gdprintk "Unexpected HVM iorequest state %d.");;
     extcall call_domain_crash domain_crash
   else
     modify (fun w => set_vio (ioreq.set_state
                                 (bitfield 4 STATE_IOREQ_NONE) (vio w)) w);;
     w <- get;;
     if truthy (io_in_progress (hvm_vcpu w)) then
       modify (fun w =>
         let h := hvm_vcpu w in
         set_hvm_vcpu (mk_hvm_vcpu 0 (io_completed h) (io_data h)
                                   (mmio_in_progress h)) w);;
       w <- get;;
       if (ioreq.dir (vio w) =? IOREQ_READ)
          && negb (truthy (ioreq.data_is_ptr (vio w))) then
         modify (fun w =>
           let h := hvm_vcpu w in
           set_hvm_vcpu (mk_hvm_vcpu (io_in_progress h) 1
                                     (u64 (ioreq.data (vio w)))
                                     (mmio_in_progress h)) w);;
         w <- get;;
         if truthy (mmio_in_progress (hvm_vcpu w)) then
           _ <- handle_mmio;; ret tt
         else ret tt
       else ret tt
     else ret tt);;
  (* out: *)
  extcall call_vcpu_end_shutdown_deferral vcpu_end_shutdown_deferral.

(** The stores [send_pio_req] and [send_mmio_req] make into the slot;
    [p->state] is left as it is and [p->io_count] is incremented. *)
Definition fill_vio (type addr count size value dir df value_is_ptr : Z)
    (p : ioreq_t) : ioreq_t :=
  ioreq.mk (u64 addr) (u64 size) (u64 count) (u64 value) (ioreq.state p)
           (bitfield 1 value_is_ptr) (bitfield 1 dir) (bitfield 1 df)
           (bitfield 8 type) (u64 (ioreq.io_count p + 1)).

(** [p->state = STATE_IORESP_READY] *)
Definition mark_resp_ready : M Env unit :=
  modify (fun w => set_vio (ioreq.set_state
                              (bitfield 4 STATE_IORESP_READY) (vio w)) w).

(** [void send_pio_req(port, count, size, value, dir, df, value_is_ptr)] *)
Definition send_pio_req (port count size value dir df value_is_ptr : Z)
    : M Env unit :=
  w <- get;;
  (if negb (ioreq.state (vio w) =? STATE_IOREQ_NONE) then
     emit (gdprintk "WARNING: send pio with something already pending (%d)?")
   else ret tt);;
  modify (fun w =>
    set_vio (fill_vio IOREQ_TYPE_PIO port count size value dir df
                      value_is_ptr (vio w)) w);;
  r <- extcall_world call_hvm_portio_intercept hvm_portio_intercept;;
  if truthy r then
    mark_resp_ready;;
    hvm_io_assist
  else
    extcall_world call_hvm_send_assist_req hvm_send_assist_req.

(** [void send_mmio_req(type, gpa, count, size, value, dir, df,
    value_is_ptr)].  The [||] does not call the buffered intercept when
    the MMIO intercept has handled the request. *)
Definition send_mmio_req (type gpa count size value dir df value_is_ptr : Z)
    : M Env unit :=
  w <- get;;
  (if negb (ioreq.state (vio w) =? STATE_IOREQ_NONE) then
     emit (gdprintk "WARNING: send mmio with something already pending (%d)?")
   else ret tt);;
  modify (fun w =>
    set_vio (fill_vio type gpa count size value dir df
                      value_is_ptr (vio w)) w);;
  r <- extcall_world call_hvm_mmio_intercept hvm_mmio_intercept;;
  r <- (if truthy r then ret r
        else extcall_world call_hvm_buffered_io_intercept
                           hvm_buffered_io_intercept);;
  if truthy r then
    mark_resp_ready;;
    hvm_io_assist
  else
    extcall_world call_hvm_send_assist_req hvm_send_assist_req.

(** The local record [p[1]] of [send_timeoffset_req] after the [memset]
    and the six stores. *)
Definition timeoffset_req (timeoff : Z) : ioreq_t :=
  ioreq.mk 0 8 1 (u64 timeoff) (bitfield 4 STATE_IOREQ_READY)
           0 (bitfield 1 IOREQ_WRITE) 0
           (bitfield 8 IOREQ_TYPE_TIMEOFFSET) 0.

(** [void send_timeoffset_req(unsigned long timeoff)].  The request is
    a local record, not the slot. *)
Definition send_timeoffset_req (timeoff : Z) : M Env unit :=
  if timeoff =? 0 then ret tt
  else
    let p := timeoffset_req timeoff in
    r <- hvm_buffered_io_send p;;
    if negb (truthy r) then emit (printk "Unsuccessful timeoffset update")
    else ret tt.

End Io.

Section Passthrough.

Context `{abi : ioreq_abi} {Env : Type} {ext : collaborators Env}.
Local Open Scope io_scope.

(** The body of the [for] loop of [dpci_ioport_read], from loop variable
    [i] on.  [p] is the record behind the pointer; the result is the
    record as the loop leaves it and whether the C loop came to its end
    ([false]: the fuel ran out first).  The counter [i] and the bound
    [length] are [uint64_t]. *)
Fixpoint dpci_ioport_read_loop (fuel : nat) (mport length i : Z)
    (p : ioreq_t) : M Env (ioreq_t * bool) :=
  match fuel with
  | O => ret (p, negb (i <? length))
  | S fuel' =>
      if i <? length then
        (* z_data = ~0ULL; switch ( p->size ) *)
        r <- (if ioreq.size p =? 1 then
                z <- extcall (call_inb mport) (inb mport);;
                ret (Some (bitfield 8 z))
              else if ioreq.size p =? 2 then
                z <- extcall (call_inw mport) (inw mport);;
                ret (Some (bitfield 16 z))
              else if ioreq.size p =? 4 then
                z <- extcall (call_inl mport) (inl mport);;
                ret (Some (bitfield 32 z))
              else
                emit (gdprintk "Error: unable to handle size: %PRId64");;
                ret None);;
        match r with
        | None => ret (p, true)
        | Some z_data =>
            (* p->data = z_data; *)
            let p := ioreq.set_data z_data p in
            if truthy (ioreq.data_is_ptr p) then
              let dst := u64 (ioreq.data p + i) in
              let n := int32 (ioreq.size p) in
              rc <- extcall (call_hvm_copy_to_guest_phys dst z_data n)
                            (hvm_copy_to_guest_phys dst z_data n);;
              if truthy rc then
                emit (gdprintk "Error: couldn't copy to hvm phys");;
                ret (p, true)
              else
                dpci_ioport_read_loop fuel' mport length
                                      (u64 (i + ioreq.size p)) p
            else
              dpci_ioport_read_loop fuel' mport length
                                    (u64 (i + ioreq.size p)) p
        end
      else ret (p, true)
  end.

(** The loop runs at most [p->count] times: its counter goes through
    the multiples of [p->size] and [length] is the [p->count]-th. *)
Definition loop_fuel (p : ioreq_t) : nat := S (Z.to_nat (ioreq.count p)).

(** [void dpci_ioport_read(uint32_t mport, ioreq_t *p)] *)
Definition dpci_ioport_read (mport : Z) (p : ioreq_t) : M Env ioreq_t :=
  let length := u64 (ioreq.count p * ioreq.size p) in
  r <- dpci_ioport_read_loop (loop_fuel p) mport length 0 p;;
  ret (fst r).

(** Overwrite the low [n] bytes of the 8-byte [z_data] with [v], as the
    copy into [&z_data] does on a little-endian host. *)
Definition overlay_bytes (n z_data v : Z) : Z :=
  let m := 2 ^ (8 * Z.min (Z.max n 0) 8) in
  z_data - z_data mod m + v mod m.

(** The body of the [for] loop of [dpci_ioport_write]. *)
Fixpoint dpci_ioport_write_loop (fuel : nat) (mport length i : Z)
    (p : ioreq_t) : M Env bool :=
  match fuel with
  | O => ret (negb (i <? length))
  | S fuel' =>
      if i <? length then
        (* z_data = p->data; *)
        r <- (if truthy (ioreq.data_is_ptr p) then
                let src := u64 (ioreq.data p + i) in
                let n := int32 (ioreq.size p) in
                c <- extcall (call_hvm_copy_from_guest_phys src n)
                             (hvm_copy_from_guest_phys src n);;
                if truthy (fst c) then
                  emit (gdprintk "Error: couldn't copy from hvm phys");;
                  ret None
                else ret (Some (overlay_bytes n (ioreq.data p) (snd c)))
              else ret (Some (ioreq.data p)));;
        match r with
        | None => ret true
        | Some z_data =>
            (if ioreq.size p =? 1 then
               extcall (call_outb (bitfield 8 z_data) mport)
                       (outb (bitfield 8 z_data) mport)
             else if ioreq.size p =? 2 then
               extcall (call_outw (bitfield 16 z_data) mport)
                       (outw (bitfield 16 z_data) mport)
             else if ioreq.size p =? 4 then
               extcall (call_outl (bitfield 32 z_data) mport)
                       (outl (bitfield 32 z_data) mport)
             else
               emit (gdprintk "Error: unable to handle size: %PRId64"));;
            dpci_ioport_write_loop fuel' mport length
                                   (u64 (i + ioreq.size p)) p
        end
      else ret true
  end.

(** [void dpci_ioport_write(uint32_t mport, ioreq_t *p)] *)
Definition dpci_ioport_write (mport : Z) (p : ioreq_t) : M Env unit :=
  let length := u64 (ioreq.count p * ioreq.size p) in
  _ <- dpci_ioport_write_loop (loop_fuel p) mport length 0 p;;
  ret tt.

(** The [list_for_each_entry] scan of [dpci_ioport_intercept]: the
    first entry whose range [s, e) holds the guest port, with [e]
    computed in [unsigned int]. *)
Fixpoint g2m_lookup (gp : Z) (l : list g2m_ioport_t) : option g2m_ioport_t :=
  match l with
  | [] => None
  | g :: l' =>
      let s := g2m_ioport.gport g in
      let e := u32 (s + g2m_ioport.np g) in
      if (gp >=? s) && (gp <? e) then Some g else g2m_lookup gp l'
  end.

(** The host port for guest port [gp] under entry [g], in
    [unsigned int]. *)
Definition host_port (gp : Z) (g : g2m_ioport_t) : Z :=
  u32 ((gp - g2m_ioport.gport g) + g2m_ioport.mport g).

(** [int dpci_ioport_intercept(ioreq_t *p)]: the return value and the
    record behind [p] afterwards. *)
Definition dpci_ioport_intercept (p : ioreq_t) : M Env (Z * ioreq_t) :=
  w <- get;;
  let gp := u32 (ioreq.addr p) in
  match g2m_lookup gp (g2m_ioport_list (env w)) with
  | None => ret (0, p)
  | Some g =>
      (* found: *)
      let mport := host_port gp g in
      if negb (ioports_access_permitted (env w) mport
                 (u64 (mport + ioreq.size p - 1))) then
        emit (gdprintk "Error: access to gport=0x%x denied!");;
        ret (0, p)
      else
        p' <- (if ioreq.dir p =? IOREQ_READ then
                 dpci_ioport_read mport p
               else if ioreq.dir p =? IOREQ_WRITE then
                 dpci_ioport_write mport p;; ret p
               else
                 emit (gdprintk "Error: couldn't handle p->dir = %d");;
                 ret p);;
        ret (1, p')
  end.

End Passthrough.

(** ** Vocabulary of the trace properties *)

(** How many events of a trace satisfy [f]. *)
Fixpoint count_events (f : event -> bool) (l : list event) : nat :=
  match l with
  | [] => O
  | e :: l' => if f e then S (count_events f l') else count_events f l'
  end.

(** The release of the deferred-shutdown hold. *)
Definition is_release (e : event) : bool :=
  match e with call_vcpu_end_shutdown_deferral => true | _ => false end.

(** A dispatch step: an intercept handler, or the synchronous hand-off to
    the external consumer, after which the virtual CPU waits for the
    response. *)
Definition is_dispatch (e : event) : bool :=
  match e with
  | call_hvm_portio_intercept | call_hvm_mmio_intercept
  | call_hvm_buffered_io_intercept | call_hvm_send_assist_req => true
  | _ => false
  end.

Section TraceVocabulary.

Context `{abi : ioreq_abi} {Env : Type} {ext : collaborators Env}.

(** A computation only appends to the trace, and appends no event that
    satisfies [f]. *)
Definition quiet (f : event -> bool) {A} (m : M Env A) : Prop :=
  forall w, exists evs,
    trace (snd (m w)) = trace w ++ evs /\ count_events f evs = O.

(** The diagnostic both dispatchers print when the slot is not idle. *)
Definition pending_warning (fmt : string) (w : world Env) : world Env :=
  if negb (ioreq.state (vio w) =? STATE_IOREQ_NONE)
  then set_trace (trace w ++ [gdprintk fmt]) w
  else w.

(** The world as [send_pio_req] hands it to [hvm_portio_intercept]. *)
Definition pio_issued (port count size value dir df value_is_ptr : Z)
    (w : world Env) : world Env :=
  let w0 :=
    pending_warning "WARNING: send pio with something already pending (%d)?" w
  in
  set_vio (fill_vio IOREQ_TYPE_PIO port count size value dir df value_is_ptr
                    (vio w0)) w0.

(** The world as [send_mmio_req] hands it to [hvm_mmio_intercept]. *)
Definition mmio_issued (type gpa count size value dir df value_is_ptr : Z)
    (w : world Env) : world Env :=
  let w0 :=
    pending_warning "WARNING: send mmio with something already pending (%d)?" w
  in
  set_vio (fill_vio type gpa count size value dir df value_is_ptr
                    (vio w0)) w0.

(** The world after a collaborator [f] was called on [w]: the
    collaborator's result with the call appended to the trace. *)
Definition after_call {A} (e : event) (f : world Env -> A * world Env)
    (w : world Env) : world Env :=
  set_trace (trace w ++ [e]) (snd (f w)).

End TraceVocabulary.

(** ** A concrete instance

    The values of the Xen public headers, and collaborators simple enough
    to run: no intercept handler claims anything, the synchronous hand-off
    marks the slot ready, every port read returns [port_value], every
    guest copy returns [copy_rc], and one guest range [0x300, 0x310) is
    mapped to host ports from [0x3F0] on. *)

Definition xen_abi : ioreq_abi := {|
  IOREQ_BUFFER_SLOT_NUM := 511;
  STATE_IOREQ_NONE := 0;
  STATE_IOREQ_READY := 1;
  STATE_IORESP_READY := 3;
  IOREQ_READ := 1;
  IOREQ_WRITE := 0;
  IOREQ_TYPE_PIO := 0;
  IOREQ_TYPE_TIMEOFFSET := 7;
  X86EMUL_UNHANDLEABLE := 1;
  X86EMUL_EXCEPTION := 2
|}.

Definition demo_collaborators (permit : bool) (port_value copy_rc : Z)
    : collaborators unit := {|
  hvm_portio_intercept := fun w => (0, w);
  hvm_mmio_intercept := fun w => (0, w);
  hvm_buffered_io_intercept := fun w => (0, w);
  hvm_send_assist_req := fun w =>
    (tt, set_vio (ioreq.set_state 1 (vio w)) w);
  domain_crash := fun e => (tt, e);
  vcpu_end_shutdown_deferral := fun e => (tt, e);
  hvm_emulate_one := fun w => ((0, mk_hvm_emulate_ctxt 0 0 0), w);
  hvm_inject_exception := fun _ _ _ e => (tt, e);
  hvm_emulate_writeback := fun _ w => (tt, w);
  inb := fun _ e => (port_value, e);
  inw := fun _ e => (port_value, e);
  inl := fun _ e => (port_value, e);
  outb := fun _ _ e => (tt, e);
  outw := fun _ _ e => (tt, e);
  outl := fun _ _ e => (tt, e);
  hvm_copy_to_guest_phys := fun _ _ _ e => (copy_rc, e);
  hvm_copy_from_guest_phys := fun _ _ e => ((copy_rc, 0), e);
  ioports_access_permitted := fun _ _ _ => permit;
  g2m_ioport_list := fun _ => [g2m_ioport.mk 0x300 0x3F0 0x10]
|}.

Definition empty_slot : buf_ioreq_t := buf_ioreq.mk 0 0 0 0 0.

(** A world with an idle slot and a ring of 511 empty slots whose
    pointers are [rp] and [wp]. *)
Definition demo_world (rp wp : Z) : world unit :=
  mk_world ioreq.zero (mk_hvm_vcpu 0 0 0 0)
           (mk_buffered_iopage rp wp (replicate 511 empty_slot)) tt [].

(** A 4-byte write to the VGA window. *)
Definition vga_write4 : ioreq_t := ioreq.mk 0xA0000 4 1 0x1234 0 0 0 0 1 0.

(** A 4-byte read of the same address: direction [IOREQ_READ]. *)
Definition vga_read4 : ioreq_t := ioreq.mk 0xA0000 4 1 0 0 0 1 0 1 0.

(** An 8-byte write, as [send_timeoffset_req] builds it. *)
Definition qword_write : ioreq_t :=
  ioreq.mk 0 8 1 0x1122334455667788 1 0 0 0 7 0.

(** A two-word string read of guest port [0x305] into guest memory at
    [0x1000]: pointer-indirected, read direction, width 2, count 2. *)
Definition rep_insw : ioreq_t := ioreq.mk 0x305 2 2 0x1000 0 1 1 0 0 0.

(** A one-byte read of guest port [0x305]. *)
Definition inb_305 : ioreq_t := ioreq.mk 0x305 1 1 0 0 0 1 0 0 0.



(** ** Further vocabulary: the rest of the file and compositions *)

(** Kinds of events the properties below count. *)
Definition is_domain_crash (e : event) : bool :=
  match e with call_domain_crash => true | _ => false end.

Definition is_emulate (e : event) : bool :=
  match e with call_hvm_emulate_one => true | _ => false end.

Definition is_writeback (e : event) : bool :=
  match e with call_hvm_emulate_writeback => true | _ => false end.

Definition is_inject (e : event) : bool :=
  match e with call_hvm_inject_exception _ _ => true | _ => false end.

Definition is_handoff (e : event) : bool :=
  match e with call_hvm_send_assist_req => true | _ => false end.

Definition is_buffered_intercept (e : event) : bool :=
  match e with call_hvm_buffered_io_intercept => true | _ => false end.

Definition is_diagnostic (e : event) : bool :=
  match e with gdprintk _ | printk _ => true | _ => false end.

(** The events inline completion must not contain. *)
Definition is_not_inline (e : event) : bool :=
  is_handoff e || is_domain_crash e || is_release e
  || is_buffered_intercept e.

(** The port instruction a read of width 1, 2 or 4 is made with. *)
Definition in_event (size mport : Z) : event :=
  if size =? 1 then call_inb mport
  else if size =? 2 then call_inw mport
  else call_inl mport.

(** What one round of the write loop does with the value [z_data]: the
    port instruction of the width, or the diagnostic of the [default]
    branch. *)
Definition write_round_event (size z_data mport : Z) : event :=
  if size =? 1 then call_outb (bitfield 8 z_data) mport
  else if size =? 2 then call_outw (bitfield 16 z_data) mport
  else if size =? 4 then call_outl (bitfield 32 z_data) mport
  else gdprintk "Error: unable to handle size: %PRId64".

(** The widths the passthrough workers have a port instruction for. *)
Definition port_width (size : Z) : Prop := size = 1 \/ size = 2 \/ size = 4.

(** A record whose fields hold values of their C types. *)
Definition ioreq_wf (p : ioreq_t) : Prop :=
  0 <= ioreq.addr p < 2 ^ 64 /\ 0 <= ioreq.size p < 2 ^ 64 /\
  0 <= ioreq.count p < 2 ^ 64 /\ 0 <= ioreq.data p < 2 ^ 64 /\
  0 <= ioreq.state p < 2 ^ 4 /\ 0 <= ioreq.data_is_ptr p < 2 /\
  0 <= ioreq.dir p < 2 /\ 0 <= ioreq.df p < 2 /\
  0 <= ioreq.type p < 2 ^ 8 /\ 0 <= ioreq.io_count p < 2 ^ 64.

(** The width in bytes a slot's two-bit code stands for. *)
Definition slot_width (b : buf_ioreq_t) : Z := 2 ^ buf_ioreq.size b.

(** The 64-bit value the consumer reassembles from the two slots of an
    8-byte record. *)
Definition qword_of_slots (lo hi : buf_ioreq_t) : Z :=
  buf_ioreq.data lo + 2 ^ 32 * buf_ioreq.data hi.

Section Compositions.

Context `{abi : ioreq_abi} {Env : Type} {ext : collaborators Env}.
Local Open Scope io_scope.

(** [n] calls of [hvm_buffered_io_send] with the same record, one after
    the other; the result is the number of calls that returned 1. *)
Fixpoint hvm_buffered_io_send_n (n : nat) (p : ioreq_t) : M Env Z :=
  match n with
  | O => ret 0
  | S n' =>
      r <- hvm_buffered_io_send p;;
      k <- hvm_buffered_io_send_n n' p;;
      ret (r + k)
  end.

(** [get_ioreq(v)] is [NULL] when the domain has no shared request page;
    the header that defines it is not in the tree, so the test is a
    parameter.  So is the request type constant. *)
Variable get_ioreq_is_null : Env -> bool.
Variable IOREQ_TYPE_INVALIDATE : Z.


End Compositions.

(** Collaborators as in [demo_collaborators], except that the port and
    the MMIO intercept handlers claim every request. *)
Definition handling_collaborators : collaborators unit := {|
  hvm_portio_intercept := fun w => (1, w);
  hvm_mmio_intercept := fun w => (1, w);
  hvm_buffered_io_intercept := fun w => (0, w);
  hvm_send_assist_req := fun w =>
    (tt, set_vio (ioreq.set_state 1 (vio w)) w);
  domain_crash := fun e => (tt, e);
  vcpu_end_shutdown_deferral := fun e => (tt, e);
  hvm_emulate_one := fun w => ((0, mk_hvm_emulate_ctxt 0 0 0), w);
  hvm_inject_exception := fun _ _ _ e => (tt, e);
  hvm_emulate_writeback := fun _ w => (tt, w);
  inb := fun _ e => (0, e);
  inw := fun _ e => (0, e);
  inl := fun _ e => (0, e);
  outb := fun _ _ e => (tt, e);
  outw := fun _ _ e => (tt, e);
  outl := fun _ _ e => (tt, e);
  hvm_copy_to_guest_phys := fun _ _ _ e => (0, e);
  hvm_copy_from_guest_phys := fun _ _ e => ((0, 0), e);
  ioports_access_permitted := fun _ _ _ => true;
  g2m_ioport_list := fun _ => []
|}.

(** A world whose slot holds the response to a one-byte port read (write
    when [dir] is 0) and whose vCPU has that I/O in progress. *)
Definition response_world (dir : Z) : world unit :=
  mk_world (ioreq.mk 0x3F8 1 1 0x5A 3 0 dir 0 0 1) (mk_hvm_vcpu 1 0 0 0)
           (mk_buffered_iopage 0 0 (replicate 511 empty_slot)) tt [].

(** An 8-byte read of guest port [0x305]. *)
Definition inq_305 : ioreq_t := ioreq.mk 0x305 8 1 0 0 0 1 0 0 0.

(** Three one-byte reads of guest port [0x305], immediate data. *)
Definition rep_inb_305 : ioreq_t := ioreq.mk 0x305 1 3 0 0 0 1 0 0 0.

(** Three two-byte writes of [0x1234] to guest port [0x305]. *)
Definition rep_outw_305 : ioreq_t := ioreq.mk 0x305 2 3 0x1234 0 0 0 0 0 0.

(** A string write from guest memory at [0x2000] to guest port [0x305]. *)
Definition rep_outsw_305 : ioreq_t :=
  ioreq.mk 0x305 2 4 0x2000 0 1 0 0 0 0.

(** ** Properties of the C integer conversions *)

(** Make the powers of two of the C types known to [lia]. *)
Ltac pow2 :=
  pose proof (eq_refl : 2 ^ 20 = 1048576);
  pose proof (eq_refl : 2 ^ 31 = 2147483648);
  pose proof (eq_refl : 2 ^ 32 = 4294967296);
  pose proof (eq_refl : 2 ^ 64 = 18446744073709551616).
Ltac lia2 := pow2; lia.

(** Settle a closed statement by evaluation. *)
Ltac crunch :=
  vm_compute;
  repeat match goal with |- _ /\ _ => split end;
  first [reflexivity | discriminate | (intro; discriminate) | idtac].

Lemma u32_range (z : Z) : 0 <= u32 z < 2 ^ 32.
Proof. unfold u32. apply Z.mod_pos_bound. lia. Qed.

Lemma u32_small (z : Z) : 0 <= z < 2 ^ 32 -> u32 z = z.
Proof. intros H. unfold u32. apply Z.mod_small. exact H. Qed.

Lemma u32_le (z : Z) : 0 <= z -> u32 z <= z.
Proof. intros H. unfold u32. apply Z.mod_le; lia. Qed.

(** Adding to the write pointer adds to the occupancy, in
    [unsigned int]. *)
Lemma u32_advance (wp rp n : Z) :
  u32 (u32 (wp + n) - rp) = u32 (u32 (wp - rp) + n).
Proof.
  unfold u32.
  rewrite Zminus_mod_idemp_l, Zplus_mod_idemp_l.
  f_equal. lia.
Qed.

(** ** Properties of the buffered ring *)

Section BufferedRingFacts.

Context `{abi : ioreq_abi} {Env : Type}.
Implicit Types (p : ioreq_t) (w : world Env) (pg : buffered_iopage_t).

Lemma switch_size_eligible p :
  buffered_eligible p ->
  switch_size (ioreq.size p)
  = Some (if ioreq.size p =? 1 then 0
          else if ioreq.size p =? 2 then 1
          else if ioreq.size p =? 4 then 2 else 3,
          slots_required p - 1).
Proof.
  intros (_ & _ & _ & [H | [H | [H | H]]]);
    unfold switch_size, slots_required; rewrite H; reflexivity.
Qed.

Lemma shape_test_eligible p :
  buffered_eligible p ->
  (ioreq.addr p >? 0xfffff) || truthy (ioreq.data_is_ptr p)
  || negb (ioreq.count p =? 1) = false.
Proof.
  intros (Ha & Hp & Hc & _). rewrite Hp, Hc. unfold truthy. simpl.
  rewrite !orb_false_r, Z.gtb_ltb. apply Z.ltb_ge. lia.
Qed.

Lemma slots_required_cases p :
  slots_required p = 1 \/ slots_required p = 2.
Proof. unfold slots_required. destruct (_ =? _); auto. Qed.

(** The full test of [hvm_buffered_io_send] in terms of free slots. *)
Lemma full_test_free_slots p pg :
  slot_num_ok ->
  (u32 (write_pointer pg - read_pointer pg)
     >=? u32 (IOREQ_BUFFER_SLOT_NUM - (slots_required p - 1))) = false
  <-> slots_required p <= free_slots pg.
Proof.
  intros Hn. unfold free_slots, used_slots, slot_num_ok in *.
  pose proof (slots_required_cases p) as Hq.
  rewrite (u32_small (IOREQ_BUFFER_SLOT_NUM - _)) by lia2.
  rewrite Z.geb_leb, Z.leb_gt. lia.
Qed.

(** What [hvm_buffered_io_send] does with an eligible request. *)
Lemma hvm_buffered_io_send_eligible p w :
  slot_num_ok -> buffered_eligible p ->
  let pg := buf_page w in
  let n := IOREQ_BUFFER_SLOT_NUM in
  let code := if ioreq.size p =? 1 then 0
              else if ioreq.size p =? 2 then 1
              else if ioreq.size p =? 4 then 2 else 3 in
  let lo := buf_ioreq.mk (bitfield 8 (ioreq.type p))
              (bitfield 1 (ioreq.dir p)) code
              (bitfield 20 (ioreq.addr p)) (u32 (ioreq.data p)) in
  let hi := buf_ioreq.set_data (u32 (Z.shiftr (ioreq.data p) 32)) lo in
  let slots1 := <[Z.to_nat (write_pointer pg mod n) := lo]> (buf_ioreq pg) in
  hvm_buffered_io_send p w =
    if decide (slots_required p <= free_slots pg) then
      (1, set_buf_page
            (mk_buffered_iopage (read_pointer pg)
               (u32 (write_pointer pg + slots_required p))
               (if ioreq.size p =? 8
                then <[Z.to_nat (u32 (write_pointer pg + 1) mod n) := hi]>
                       slots1
                else slots1)) w)
    else (0, w).
Proof.
  intros Hn He. cbv zeta.
  unfold hvm_buffered_io_send.
  rewrite (shape_test_eligible p He), (switch_size_eligible p He).
  unfold bind, get.
  pose proof (full_test_free_slots p (buf_page w) Hn) as Hfull.
  destruct (_ >=? _) eqn:Hcmp.
  - destruct (decide _) as [Hd | Hd]; [|reflexivity].
    apply Hfull in Hd. congruence.
  - destruct (decide _) as [Hd | Hd]; [|tauto].
    unfold slot_num_ok in Hn.
    rewrite !(u32_small IOREQ_BUFFER_SLOT_NUM) by lia2.
    unfold slots_required.
    destruct (ioreq.size p =? 8) eqn:H8; reflexivity.
Qed.

End BufferedRingFacts.

(** Slot indices are within the array and determine the position. *)
Lemma slot_index_lt (n x : Z) (l : list buf_ioreq_t) :
  0 < n -> Z.of_nat (length l) = n -> (Z.to_nat (x mod n) < length l)%nat.
Proof.
  intros Hn Hl. pose proof (Z.mod_pos_bound x n Hn). lia.
Qed.

Lemma slot_index_inj (n x y : Z) :
  0 < n -> Z.to_nat (x mod n) = Z.to_nat (y mod n) -> x mod n = y mod n.
Proof.
  intros Hn H. pose proof (Z.mod_pos_bound x n Hn).
  pose proof (Z.mod_pos_bound y n Hn). lia.
Qed.

Section BufferedRingClaims.

Context `{abi : ioreq_abi} {Env : Type}.
Implicit Types (p : ioreq_t) (w : world Env) (pg : buffered_iopage_t).

(** A request that is not eligible is turned away before the ring is
    looked at: nothing changes but, on the [default] branch of the width
    switch, the diagnostic. *)
Lemma hvm_buffered_io_send_ineligible p w :
  ~ buffered_eligible p ->
  hvm_buffered_io_send p w = (0, w) \/
  hvm_buffered_io_send p w
  = (0, set_trace (trace w ++ [gdprintk "unexpected ioreq size:%PRId64"]) w).
Proof.
  intros Hne. unfold hvm_buffered_io_send.
  destruct (_ || _) eqn:Hshape; [left; reflexivity|].
  apply orb_false_elim in Hshape as [Hshape Hc].
  apply orb_false_elim in Hshape as [Ha Hp].
  unfold switch_size.
  destruct (ioreq.size p =? 1) eqn:H1;
    [|destruct (ioreq.size p =? 2) eqn:H2;
      [|destruct (ioreq.size p =? 4) eqn:H4;
        [|destruct (ioreq.size p =? 8) eqn:H8; [|right; reflexivity]]]];
    exfalso; apply Hne; unfold buffered_eligible;
    rewrite Z.gtb_ltb in Ha; apply Z.ltb_ge in Ha;
    unfold truthy in Hp; apply negb_false_iff, Z.eqb_eq in Hp;
    apply negb_false_iff, Z.eqb_eq in Hc;
    repeat split; try assumption; try lia2.
Qed.

(** Whatever the request, a rejection leaves the ring page, the slot,
    the flags and the collaborators' state as they were. *)
Lemma hvm_buffered_io_send_rejects p w :
  slot_num_ok ->
  fst (hvm_buffered_io_send p w) = 0 ->
  buf_page (snd (hvm_buffered_io_send p w)) = buf_page w /\
  vio (snd (hvm_buffered_io_send p w)) = vio w /\
  hvm_vcpu (snd (hvm_buffered_io_send p w)) = hvm_vcpu w /\
  env (snd (hvm_buffered_io_send p w)) = env w.
Proof.
  intros Hn. destruct (decide (buffered_eligible p)) as [He | Hne].
  - rewrite (hvm_buffered_io_send_eligible p w Hn He).
    destruct (decide _); simpl; [discriminate | auto].
  - destruct (hvm_buffered_io_send_ineligible p w Hne) as [-> | ->];
      simpl; auto.
Qed.

(** C1: for a buffered-eligible request, [hvm_buffered_io_send] returns 1
    exactly when the free slot count, capacity less the pointer
    difference, is at least the slot count the record needs (1 for widths
    1, 2 and 4, 2 for width 8).  It then has enqueued the record: the
    state is the old one with the record's slot stored at the write
    pointer modulo the capacity (for width 8 followed by the slot with
    the high data word at the next position) and the write pointer
    advanced by the slot count, so that the record occupies that many
    more slots and, on a well-formed page, is what the consumer finds
    there.  Otherwise it returns 0 and the state, the ring included, is
    unchanged. *)
Theorem hvm_buffered_io_send_iff_free_slots p w :
  slot_num_ok -> buffered_eligible p ->
  let r := hvm_buffered_io_send p w in
  let pg := buf_page w in
  let pg' := buf_page (snd r) in
  let i0 := write_pointer pg mod IOREQ_BUFFER_SLOT_NUM in
  let i1 := u32 (write_pointer pg + 1) mod IOREQ_BUFFER_SLOT_NUM in
  let lo := buf_ioreq.mk (bitfield 8 (ioreq.type p))
              (bitfield 1 (ioreq.dir p))
              (if ioreq.size p =? 1 then 0
               else if ioreq.size p =? 2 then 1
               else if ioreq.size p =? 4 then 2 else 3)
              (bitfield 20 (ioreq.addr p))
              (ioreq.data p mod 2 ^ 32) in
  let hi := buf_ioreq.set_data ((ioreq.data p / 2 ^ 32) mod 2 ^ 32) lo in
  (fst r = 1 <-> slots_required p <= free_slots (buf_page w)) /\
  (fst r = 1 \/ fst r = 0) /\
  (fst r = 1 ->
   used_slots (buf_page (snd r))
   = used_slots (buf_page w) + slots_required p) /\
  (fst r = 0 -> snd r = w) /\
  (fst r = 1 ->
   snd r
   = set_buf_page
       (mk_buffered_iopage (read_pointer pg)
          (u32 (write_pointer pg + slots_required p))
          (if ioreq.size p =? 8
           then <[Z.to_nat i1 := hi]> (<[Z.to_nat i0 := lo]> (buf_ioreq pg))
           else <[Z.to_nat i0 := lo]> (buf_ioreq pg))) w) /\
  (fst r = 1 -> page_wf pg ->
   (ioreq.size p <> 8 -> slot_at pg' i0 = Some lo) /\
   (ioreq.size p = 8 ->
    slot_at pg' i1 = Some hi /\
    (i0 <> i1 -> slot_at pg' i0 = Some lo))).
Proof.
  intros Hn He. cbv zeta.
  assert (Hpos : 0 < IOREQ_BUFFER_SLOT_NUM) by (unfold slot_num_ok in Hn; lia).
  rewrite (hvm_buffered_io_send_eligible p w Hn He).
  rewrite Z.shiftr_div_pow2 by lia.
  change (u32 (ioreq.data p)) with (ioreq.data p mod 2 ^ 32).
  change (u32 (ioreq.data p / 2 ^ 32))
    with ((ioreq.data p / 2 ^ 32) mod 2 ^ 32).
  destruct (decide _) as [Hd | Hd]; simpl.
  - split; [split; auto|]. split; [left; reflexivity|].
    split.
    { intros _. unfold used_slots. simpl. rewrite u32_advance.
      unfold free_slots, used_slots, slot_num_ok in *.
      pose proof (u32_range (write_pointer (buf_page w)
                             - read_pointer (buf_page w))).
      pose proof (slots_required_cases p).
      apply u32_small. lia2. }
    split; [discriminate|]. split; [intros _; reflexivity|].
    intros _ (Hrp & Hwp & Hlen). unfold slot_at. split.
    + intros H8. apply Z.eqb_neq in H8. rewrite H8.
      apply list_lookup_insert_eq. apply slot_index_lt; assumption.
    + intros H8. rewrite H8. change (8 =? 8) with true. cbv iota. split.
      * apply list_lookup_insert_eq. rewrite length_insert.
        apply slot_index_lt; assumption.
      * intros Hne. cbn [buf_ioreq].
        rewrite list_lookup_insert_ne
          by (intros Heq; apply Hne; symmetry;
              eapply slot_index_inj; eassumption).
        apply list_lookup_insert_eq. apply slot_index_lt; assumption.
  - split; [split; [discriminate | tauto]|]. split; [right; reflexivity|].
    split; [discriminate|]. split; [intros _; reflexivity|].
    split; discriminate.
Qed.

(** C2: if the occupancy is within the capacity before a call of
    [hvm_buffered_io_send], it is within the capacity after it, for every
    request and whether the call enqueues or not. *)
Theorem hvm_buffered_io_send_preserves_bound p w :
  slot_num_ok ->
  ring_bounded (buf_page w) ->
  ring_bounded (buf_page (snd (hvm_buffered_io_send p w))).
Proof.
  intros Hn Hb. destruct (decide (buffered_eligible p)) as [He | Hne].
  - rewrite (hvm_buffered_io_send_eligible p w Hn He).
    destruct (decide _) as [Hd | Hd]; simpl; [|exact Hb].
    unfold ring_bounded, used_slots in *. simpl. rewrite u32_advance.
    unfold free_slots, used_slots in Hd.
    pose proof (u32_range (write_pointer (buf_page w)
                           - read_pointer (buf_page w))).
    pose proof (slots_required_cases p).
    etrans; [apply u32_le|]; lia.
  - destruct (hvm_buffered_io_send_ineligible p w Hne) as [-> | ->];
      exact Hb.
Qed.

End BufferedRingClaims.

Lemma hvm_buffered_io_send_iff_free_slots_witness :
  @slot_num_ok xen_abi /\ buffered_eligible vga_write4 /\
  fst (@hvm_buffered_io_send xen_abi unit vga_write4 (demo_world 0 0)) = 1 /\
  @page_wf xen_abi (buf_page (demo_world 0 0)) /\
  ioreq.size vga_write4 <> 8 /\
  slot_at (buf_page (snd (@hvm_buffered_io_send xen_abi unit vga_write4
                            (demo_world 0 0)))) 0
  = Some (buf_ioreq.mk 1 0 2 0xA0000 0x1234).
Proof.
  assert (Hn : @slot_num_ok xen_abi) by crunch.
  assert (He : buffered_eligible vga_write4)
    by (unfold buffered_eligible; simpl; lia).
  assert (Hf : slots_required vga_write4
               <= @free_slots xen_abi (buf_page (demo_world 0 0)))
    by crunch.
  assert (H1 : fst (@hvm_buffered_io_send xen_abi unit vga_write4
                      (demo_world 0 0)) = 1)
    by exact (proj2 (proj1 (@hvm_buffered_io_send_iff_free_slots xen_abi
                              unit vga_write4 (demo_world 0 0) Hn He))
                    Hf).
  assert (Hw : @page_wf xen_abi (buf_page (demo_world 0 0))) by crunch.
  assert (H8 : ioreq.size vga_write4 <> 8) by (simpl; lia).
  repeat (split; [assumption|]).
  exact (proj1 (proj2 (proj2 (proj2 (proj2 (proj2
           (@hvm_buffered_io_send_iff_free_slots xen_abi unit vga_write4
              (demo_world 0 0) Hn He))))) H1 Hw) H8).
Defined.

Lemma hvm_buffered_io_send_preserves_bound_witness :
  @slot_num_ok xen_abi /\
  @ring_bounded xen_abi (buf_page (demo_world 3 513)) /\
  @ring_bounded xen_abi
    (buf_page (snd (@hvm_buffered_io_send xen_abi unit vga_write4
                      (demo_world 3 513)))).
Proof.
  assert (Hn : @slot_num_ok xen_abi) by crunch.
  assert (Hb : @ring_bounded xen_abi (buf_page (demo_world 3 513)))
    by crunch.
  split; [exact Hn | split; [exact Hb|]].
  exact (@hvm_buffered_io_send_preserves_bound xen_abi unit vga_write4
           (demo_world 3 513) Hn Hb).
Defined.

(** ** Slots written by an enqueue *)

(** Two successive values of the write pointer address different slots
    unless the increment wraps the pointer itself. *)
Lemma successive_slots_distinct (n wp : Z) :
  2 <= n -> 0 <= wp -> wp + 1 < 2 ^ 32 ->
  wp mod n <> u32 (wp + 1) mod n.
Proof.
  intros Hn H0 H1. rewrite u32_small by lia.
  pose proof (Z.mod_pos_bound wp n ltac:(lia)) as Hr.
  destruct (Z_lt_dec (wp mod n + 1) n) as [Hlt | Hge].
  - rewrite <- (Zplus_mod_idemp_l wp 1 n).
    rewrite (Z.mod_small (wp mod n + 1)) by lia. lia.
  - rewrite <- (Zplus_mod_idemp_l wp 1 n).
    replace (wp mod n + 1) with n by lia.
    rewrite Z.mod_same by lia. lia.
Qed.

(** With 511 slots they differ for every value of the pointer. *)
Lemma successive_slots_distinct_511 (wp : Z) :
  0 <= wp < 2 ^ 32 -> wp mod 511 <> u32 (wp + 1) mod 511.
Proof.
  intros H. destruct (Z_lt_dec (wp + 1) (2 ^ 32)) as [Hlt | Hge].
  - apply successive_slots_distinct; lia.
  - assert (wp = 4294967295) as -> by lia2. crunch.
Qed.

Section QwordAndDirection.

Context `{abi : ioreq_abi} {Env : Type}.
Implicit Types (p : ioreq_t) (w : world Env) (pg : buffered_iopage_t).

(** C3: an 8-byte buffered-eligible request either makes
    [hvm_buffered_io_send] return 1 with the write pointer advanced by 2
    and two slots written, the low 32 bits of the data at the write
    pointer modulo the capacity and then the high 32 bits at the write
    pointer plus one modulo the capacity, every other slot being left
    alone; or makes it return 0 with nothing changed.  The pointer never
    advances by 1. *)
Theorem hvm_buffered_io_send_qword p w :
  slot_num_ok -> page_wf (buf_page w) ->
  buffered_eligible p -> ioreq.size p = 8 ->
  let r := hvm_buffered_io_send p w in
  let pg := buf_page w in
  let pg' := buf_page (snd r) in
  let i0 := write_pointer pg mod IOREQ_BUFFER_SLOT_NUM in
  let i1 := u32 (write_pointer pg + 1) mod IOREQ_BUFFER_SLOT_NUM in
  let lo := buf_ioreq.mk (bitfield 8 (ioreq.type p))
              (bitfield 1 (ioreq.dir p)) 3 (bitfield 20 (ioreq.addr p))
              (ioreq.data p mod 2 ^ 32) in
  let hi := buf_ioreq.set_data ((ioreq.data p / 2 ^ 32) mod 2 ^ 32) lo in
  ((fst r = 1 /\
    write_pointer pg' = u32 (write_pointer pg + 2) /\
    read_pointer pg' = read_pointer pg /\
    buf_ioreq pg'
    = <[Z.to_nat i1 := hi]> (<[Z.to_nat i0 := lo]> (buf_ioreq pg)) /\
    slot_at pg' i1 = Some hi /\
    (i0 <> i1 -> slot_at pg' i0 = Some lo) /\
    (forall j, 0 <= j -> j <> i0 -> j <> i1 ->
               slot_at pg' j = slot_at pg j))
   \/ (fst r = 0 /\ snd r = w))
  /\ write_pointer pg' <> u32 (write_pointer pg + 1).
Proof.
  intros Hn (Hrp & Hwp & Hlen) He H8. cbv zeta.
  rewrite (hvm_buffered_io_send_eligible p w Hn He).
  assert (Hreq : slots_required p = 2)
    by (unfold slots_required; rewrite H8; reflexivity).
  assert (Hpos : 0 < IOREQ_BUFFER_SLOT_NUM) by (unfold slot_num_ok in Hn; lia).
  rewrite H8, Hreq. simpl (8 =? _). cbv iota.
  rewrite Z.shiftr_div_pow2 by lia.
  destruct (decide _) as [Hd | Hd]; simpl.
  - split.
    + left. repeat split.
      * unfold slot_at. simpl. apply list_lookup_insert_eq.
        rewrite length_insert. apply slot_index_lt; assumption.
      * intros Hne. unfold slot_at. simpl.
        rewrite list_lookup_insert_ne
          by (intros Heq; apply Hne; symmetry;
              eapply slot_index_inj; eassumption).
        apply list_lookup_insert_eq. apply slot_index_lt; assumption.
      * intros j Hj Hj0 Hj1. unfold slot_at. simpl.
        pose proof (Z.mod_pos_bound (write_pointer (buf_page w)) _ Hpos).
        pose proof (Z.mod_pos_bound (u32 (write_pointer (buf_page w) + 1))
                      _ Hpos).
        rewrite !list_lookup_insert_ne by lia. reflexivity.
    + unfold u32. change (2 ^ 32) with 4294967296 in *.
      Z.to_euclidean_division_equations. lia.
  - split; [right; split; reflexivity|].
    unfold u32. change (2 ^ 32) with 4294967296 in *.
    Z.to_euclidean_division_equations. lia.
Qed.

(** C4, as the code has it: [hvm_buffered_io_send] does not look at the
    direction.  A read-direction record is rejected, with the ring as it
    was, exactly when it is not buffered-eligible or the ring lacks the
    slots it needs; otherwise it is enqueued, and the slot at the old
    write pointer carries the read direction bit. *)
Theorem hvm_buffered_io_send_read_direction p w :
  slot_num_ok -> page_wf (buf_page w) ->
  ioreq.dir p = IOREQ_READ ->
  let r := hvm_buffered_io_send p w in
  let pg := buf_page w in
  let pg' := buf_page (snd r) in
  (fst r = 0 <->
   ~ buffered_eligible p \/ free_slots pg < slots_required p) /\
  (fst r = 0 -> pg' = pg) /\
  (fst r <> 0 ->
   fst r = 1 /\
   write_pointer pg' = u32 (write_pointer pg + slots_required p) /\
   exists b,
     slot_at pg' (write_pointer pg mod IOREQ_BUFFER_SLOT_NUM) = Some b /\
     buf_ioreq.dir b = bitfield 1 IOREQ_READ).
Proof.
  intros Hn (Hrp & Hwp & Hlen) Hdir. cbv zeta.
  assert (Hpos : 0 < IOREQ_BUFFER_SLOT_NUM) by (unfold slot_num_ok in Hn; lia).
  destruct (decide (buffered_eligible p)) as [He | Hne].
  - rewrite (hvm_buffered_io_send_eligible p w Hn He).
    destruct (decide _) as [Hd | Hd]; simpl.
    + split; [split; [discriminate | intros [? | ?]; [tauto | lia]]|].
      split; [discriminate|]. intros _. repeat split.
      unfold slot_at. simpl. rewrite <- Hdir.
      destruct (ioreq.size p =? 8).
      * destruct (decide (Z.to_nat (u32 (write_pointer (buf_page w) + 1)
                                      mod IOREQ_BUFFER_SLOT_NUM)
                          = Z.to_nat (write_pointer (buf_page w)
                                      mod IOREQ_BUFFER_SLOT_NUM)))
          as [Heq | Hneq].
        -- rewrite Heq. eexists. split.
           ++ apply list_lookup_insert_eq. rewrite length_insert.
              apply slot_index_lt; assumption.
           ++ reflexivity.
        -- rewrite list_lookup_insert_ne by exact Hneq. eexists. split.
           ++ apply list_lookup_insert_eq. apply slot_index_lt; assumption.
           ++ reflexivity.
      * eexists. split.
        -- apply list_lookup_insert_eq. apply slot_index_lt; assumption.
        -- reflexivity.
    + split; [split; [intros _; right; lia | reflexivity]|].
      split; [reflexivity | intros H; exfalso; apply H; reflexivity].
  - destruct (hvm_buffered_io_send_ineligible p w Hne) as [-> | ->]; simpl;
      (split; [split; [intros _; left; exact Hne | reflexivity]|]);
      (split; [reflexivity | intros H; exfalso; apply H; reflexivity]).
Qed.

End QwordAndDirection.

Lemma hvm_buffered_io_send_qword_witness :
  @slot_num_ok xen_abi /\ @page_wf xen_abi (buf_page (demo_world 0 0)) /\
  buffered_eligible qword_write /\ ioreq.size qword_write = 8 /\
  write_pointer
    (buf_page (snd (@hvm_buffered_io_send xen_abi unit qword_write
                      (demo_world 0 0))))
  <> u32 (write_pointer (buf_page (demo_world 0 0)) + 1).
Proof.
  assert (Hn : @slot_num_ok xen_abi) by crunch.
  assert (Hw : @page_wf xen_abi (buf_page (demo_world 0 0))) by crunch.
  assert (He : buffered_eligible qword_write)
    by (unfold buffered_eligible; simpl; lia).
  assert (H8 : ioreq.size qword_write = 8) by reflexivity.
  repeat (split; [assumption|]).
  exact (proj2 (@hvm_buffered_io_send_qword xen_abi unit qword_write
                  (demo_world 0 0) Hn Hw He H8)).
Defined.

(** C4 as stated fails: an otherwise eligible read-direction record is
    enqueued. *)
Lemma hvm_buffered_io_send_read_enqueued :
  ioreq.dir vga_read4 = @IOREQ_READ xen_abi /\
  fst (@hvm_buffered_io_send xen_abi unit vga_read4 (demo_world 0 0)) = 1 /\
  write_pointer
    (buf_page (snd (@hvm_buffered_io_send xen_abi unit vga_read4
                      (demo_world 0 0)))) = 1 /\
  slot_at
    (buf_page (snd (@hvm_buffered_io_send xen_abi unit vga_read4
                      (demo_world 0 0)))) 0
  = Some (buf_ioreq.mk 1 1 2 0xA0000 0).
Proof. crunch. Qed.

Lemma hvm_buffered_io_send_read_direction_witness :
  @slot_num_ok xen_abi /\ @page_wf xen_abi (buf_page (demo_world 0 0)) /\
  ioreq.dir vga_read4 = @IOREQ_READ xen_abi /\
  (fst (@hvm_buffered_io_send xen_abi unit vga_read4 (demo_world 0 0)) = 0
   -> buf_page (snd (@hvm_buffered_io_send xen_abi unit vga_read4
                       (demo_world 0 0)))
      = buf_page (demo_world 0 0)).
Proof.
  assert (Hn : @slot_num_ok xen_abi) by crunch.
  assert (Hw : @page_wf xen_abi (buf_page (demo_world 0 0))) by crunch.
  assert (Hd : ioreq.dir vga_read4 = @IOREQ_READ xen_abi) by reflexivity.
  repeat (split; [assumption|]).
  exact (proj1 (proj2 (@hvm_buffered_io_send_read_direction xen_abi unit
                         vga_read4 (demo_world 0 0) Hn Hw Hd))).
Defined.

(** ** What a computation adds to the trace *)

Lemma count_events_app (f : event -> bool) (l1 l2 : list event) :
  count_events f (l1 ++ l2) = (count_events f l1 + count_events f l2)%nat.
Proof.
  induction l1 as [|e l1 IH]; simpl; [reflexivity|].
  destruct (f e); rewrite IH; reflexivity.
Qed.

Section Quiet.

Context `{abi : ioreq_abi} {Env : Type} {ext : collaborators Env}.
Variable f : event -> bool.

Lemma quiet_ret {A} (a : A) : quiet f (ret (Env := Env) a).
Proof. intros w. exists []. simpl. rewrite app_nil_r. auto. Qed.

Lemma quiet_get : quiet f (get (Env := Env)).
Proof. intros w. exists []. simpl. rewrite app_nil_r. auto. Qed.

Lemma quiet_bind {A B} (m : M Env A) (k : A -> M Env B) :
  quiet f m -> (forall a, quiet f (k a)) -> quiet f (bind m k).
Proof.
  intros Hm Hk w. unfold bind.
  destruct (Hm w) as (e1 & Ht1 & Hc1).
  destruct (m w) as [a w1]. simpl in Ht1.
  destruct (Hk a w1) as (e2 & Ht2 & Hc2).
  exists (e1 ++ e2). rewrite Ht2, Ht1, app_assoc, count_events_app.
  split; [reflexivity | lia].
Qed.

Lemma quiet_modify (g : world Env -> world Env) :
  (forall w, trace (g w) = trace w) -> quiet f (modify g).
Proof.
  intros Hg w. exists []. simpl. rewrite Hg, app_nil_r. auto.
Qed.

Lemma quiet_emit (e : event) : f e = false -> quiet f (emit (Env := Env) e).
Proof. intros He w. exists [e]. simpl. rewrite He. auto. Qed.

Lemma quiet_extcall {A} (e : event) (c : Env -> A * Env) :
  f e = false -> quiet f (extcall e c).
Proof.
  intros He w. exists [e]. unfold extcall.
  destruct (c (env w)). simpl. rewrite He. auto.
Qed.

Lemma quiet_extcall_world {A} (e : event) (c : world Env -> A * world Env) :
  f e = false -> quiet f (extcall_world e c).
Proof.
  intros He w. exists [e]. unfold extcall_world.
  destruct (c w). simpl. rewrite He. auto.
Qed.

(** The ring producer makes no call: at most it prints. *)
Lemma quiet_hvm_buffered_io_send (p : ioreq_t) :
  (forall s, f (gdprintk s) = false) ->
  quiet f (hvm_buffered_io_send (Env := Env) p).
Proof.
  intros Hf. unfold hvm_buffered_io_send.
  destruct (_ || _); [apply quiet_ret|].
  destruct (switch_size _) as [[code qw]|].
  - apply quiet_bind; [apply quiet_get|]. intros w.
    destruct (_ >=? _); [apply quiet_ret|].
    apply quiet_bind; [apply quiet_modify; reflexivity|]. intros _.
    apply quiet_bind.
    + destruct (truthy qw); [apply quiet_modify; reflexivity|apply quiet_ret].
    + intros _. apply quiet_bind; [apply quiet_modify; reflexivity|].
      intros _. apply quiet_ret.
  - apply quiet_bind; [apply quiet_emit, Hf|]. intros _. apply quiet_ret.
Qed.

End Quiet.

(** Step through a computation built from the monad's primitives. *)
Ltac quiet_step :=
  first
    [ apply quiet_ret
    | apply quiet_get
    | apply quiet_emit; reflexivity
    | apply quiet_extcall; reflexivity
    | apply quiet_extcall_world; reflexivity
    | apply quiet_modify; reflexivity
    | apply quiet_bind; [|intros ?]
    | match goal with
      | |- quiet _ (if ?c then _ else _) => destruct c
      end ].

Section CompletionClaims.

Context `{abi : ioreq_abi} {Env : Type} {ext : collaborators Env}.

Lemma quiet_handle_mmio : quiet is_release handle_mmio.
Proof. unfold handle_mmio. repeat quiet_step. Qed.

(** C6: when the slot state is not [STATE_IORESP_READY], [hvm_io_assist]
    prints the diagnostic, calls [domain_crash] and leaves the slot, its
    state included, as it was; and on every path, that one included, the
    last thing it does is call [vcpu_end_shutdown_deferral], which it
    calls nowhere else: once per invocation. *)
Theorem hvm_io_assist_fatal_and_release (w : world Env) :
  (ioreq.state (vio w) <> STATE_IORESP_READY ->
   vio (snd (hvm_io_assist w)) = vio w /\
   hvm_vcpu (snd (hvm_io_assist w)) = hvm_vcpu w /\
   trace (snd (hvm_io_assist w))
   = trace w ++ [gdprintk "Unexpected HVM iorequest state %d.";
                 call_domain_crash; call_vcpu_end_shutdown_deferral]) /\
  (exists evs,
     trace (snd (hvm_io_assist w))
     = trace w ++ evs ++ [call_vcpu_end_shutdown_deferral] /\
     count_events is_release evs = O) /\
  exists evs,
    trace (snd (hvm_io_assist w)) = trace w ++ evs /\
    count_events is_release evs = 1%nat.
Proof.
  assert (Hbody : forall (body : M Env unit), quiet is_release body ->
            exists evs,
              trace (snd (bind body (fun _ =>
                            extcall call_vcpu_end_shutdown_deferral
                                    vcpu_end_shutdown_deferral) w))
              = trace w ++ evs ++ [call_vcpu_end_shutdown_deferral] /\
              count_events is_release evs = O).
  { intros body Hq. destruct (Hq w) as (evs & Ht & Hc).
    exists evs. split; [|exact Hc].
    unfold bind, extcall. destruct (body w) as [u w1]. simpl in Ht.
    destruct (vcpu_end_shutdown_deferral (env w1)). simpl.
    rewrite Ht, app_assoc. reflexivity. }
  assert (Hrel : exists evs,
            trace (snd (hvm_io_assist w))
            = trace w ++ evs ++ [call_vcpu_end_shutdown_deferral] /\
            count_events is_release evs = O).
  { unfold hvm_io_assist at 1. unfold bind at 1, get at 1.
    apply Hbody. repeat first [apply quiet_handle_mmio | quiet_step]. }
  split; [|split; [exact Hrel|]].
  - intros Hst. apply Z.eqb_neq in Hst.
    unfold hvm_io_assist, bind, get, emit, modify, extcall.
    rewrite Hst. simpl.
    destruct (domain_crash (env w)) as [u e1]. simpl.
    destruct (vcpu_end_shutdown_deferral e1) as [u' e2]. simpl.
    rewrite <- !app_assoc. auto.
  - destruct Hrel as (evs & Ht & Hc).
    exists (evs ++ [call_vcpu_end_shutdown_deferral]).
    split; [exact Ht|]. rewrite count_events_app, Hc. reflexivity.
Qed.

End CompletionClaims.

Lemma hvm_io_assist_fatal_and_release_witness :
  ioreq.state (vio (demo_world 0 0)) <> @STATE_IORESP_READY xen_abi /\
  vio (snd (@hvm_io_assist xen_abi unit (demo_collaborators true 0 0)
              (demo_world 0 0)))
  = vio (demo_world 0 0).
Proof.
  assert (Hst : ioreq.state (vio (demo_world 0 0))
                <> @STATE_IORESP_READY xen_abi) by crunch.
  split; [exact Hst|].
  exact (proj1 (proj1 (@hvm_io_assist_fatal_and_release xen_abi unit
                         (demo_collaborators true 0 0) (demo_world 0 0))
                      Hst)).
Defined.

Section TimeOffsetClaims.

Context `{abi : ioreq_abi} {Env : Type}.

Lemma timeoffset_req_eligible (timeoff : Z) :
  buffered_eligible (timeoffset_req timeoff) /\
  slots_required (timeoffset_req timeoff) = 2.
Proof.
  unfold buffered_eligible, slots_required, timeoffset_req. simpl.
  repeat split; lia.
Qed.

(** C9: [send_timeoffset_req 0] changes nothing.  With a nonzero value
    the request goes to [hvm_buffered_io_send] once and nowhere else: if
    two slots are free it is enqueued and nothing is printed; if not, the
    only effect is the report of the lost update.  Either way the request
    slot, the vCPU flags and the collaborators' state are untouched, and
    neither an intercept handler nor the synchronous hand-off, the one
    call that makes the virtual CPU wait, is called. *)
Theorem send_timeoffset_req_buffered_only (timeoff : Z) (w : world Env) :
  slot_num_ok ->
  send_timeoffset_req 0 w = (tt, w) /\
  (timeoff <> 0 ->
   let r := hvm_buffered_io_send (timeoffset_req timeoff) w in
   let w' := snd (send_timeoffset_req timeoff w) in
   ((2 <= free_slots (buf_page w) /\ fst r = 1 /\ w' = snd r /\
     trace w' = trace w /\
     used_slots (buf_page w') = used_slots (buf_page w) + 2)
    \/
    (free_slots (buf_page w) < 2 /\ fst r = 0 /\
     w' = set_trace
            (trace w ++ [printk "Unsuccessful timeoffset update"]) w)) /\
   vio w' = vio w /\ hvm_vcpu w' = hvm_vcpu w /\ env w' = env w /\
   exists evs,
     trace w' = trace w ++ evs /\ count_events is_dispatch evs = O).
Proof.
  intros Hn. split; [reflexivity|]. intros Hz. cbv zeta.
  destruct (timeoffset_req_eligible timeoff) as [He Hreq].
  pose proof (Hsend :=
                hvm_buffered_io_send_eligible (timeoffset_req timeoff) w Hn He).
  unfold send_timeoffset_req. apply Z.eqb_neq in Hz. rewrite Hz.
  cbv zeta. unfold bind.
  rewrite Hsend, Hreq.
  destruct (decide _) as [Hd | Hd]; simpl.
  - split; [left|].
    + repeat split; try assumption.
      unfold used_slots. simpl. rewrite u32_advance.
      unfold free_slots, used_slots, slot_num_ok in *.
      pose proof (u32_range (write_pointer (buf_page w)
                             - read_pointer (buf_page w))).
      apply u32_small. lia2.
    + repeat split. exists []. rewrite app_nil_r. auto.
  - split; [right|].
    + repeat split. lia.
    + repeat split. eexists. split; reflexivity.
Qed.

End TimeOffsetClaims.

Lemma send_timeoffset_req_buffered_only_witness :
  @slot_num_ok xen_abi /\ 3600 <> 0 /\
  vio (snd (@send_timeoffset_req xen_abi unit 3600 (demo_world 0 0)))
  = vio (demo_world 0 0).
Proof.
  assert (Hn : @slot_num_ok xen_abi) by crunch.
  assert (Hz : 3600 <> 0) by lia.
  split; [exact Hn | split; [exact Hz|]].
  exact (proj1 (proj2 (proj2 (@send_timeoffset_req_buffered_only xen_abi unit
                                3600 (demo_world 0 0) Hn) Hz))).
Defined.

(** ** The dispatchers *)

Section DispatchClaims.

Context `{abi : ioreq_abi} {Env : Type} {ext : collaborators Env}.

(** The first half of [send_pio_req]: warning, stores, and the call of
    the port intercept on the slot just written. *)
Lemma send_pio_req_unfold (port count size value dir df value_is_ptr : Z)
    (w : world Env) :
  let wp := pio_issued port count size value dir df value_is_ptr w in
  let w1 := after_call call_hvm_portio_intercept hvm_portio_intercept wp in
  send_pio_req port count size value dir df value_is_ptr w
  = if truthy (fst (hvm_portio_intercept wp))
    then bind mark_resp_ready (fun _ => hvm_io_assist) w1
    else extcall_world call_hvm_send_assist_req hvm_send_assist_req w1.
Proof.
  cbv zeta.
  unfold send_pio_req, pio_issued, pending_warning, after_call.
  unfold bind, get, modify, emit, ret, extcall_world, mark_resp_ready.
  destruct (negb _); simpl;
    match goal with |- context [hvm_portio_intercept ?x] =>
      destruct (hvm_portio_intercept x) as [r w2] end;
    simpl; destruct (truthy r); reflexivity.
Qed.

(** The first half of [send_mmio_req], up to the MMIO intercept. *)
Lemma send_mmio_req_unfold (type gpa count size value dir df value_is_ptr : Z)
    (w : world Env) :
  let wm := mmio_issued type gpa count size value dir df value_is_ptr w in
  let w1 := after_call call_hvm_mmio_intercept hvm_mmio_intercept wm in
  let w2 := after_call call_hvm_buffered_io_intercept
                       hvm_buffered_io_intercept w1 in
  send_mmio_req type gpa count size value dir df value_is_ptr w
  = if truthy (fst (hvm_mmio_intercept wm))
    then bind mark_resp_ready (fun _ => hvm_io_assist) w1
    else if truthy (fst (hvm_buffered_io_intercept w1))
         then bind mark_resp_ready (fun _ => hvm_io_assist) w2
         else extcall_world call_hvm_send_assist_req hvm_send_assist_req w2.
Proof.
  cbv zeta.
  unfold send_mmio_req, mmio_issued, pending_warning, after_call.
  unfold bind, get, modify, emit, ret, extcall_world, mark_resp_ready.
  destruct (negb _); simpl;
    match goal with |- context [hvm_mmio_intercept ?x] =>
      destruct (hvm_mmio_intercept x) as [r w2] end;
    simpl; destruct (truthy r) eqn:Hr; simpl; rewrite ?Hr;
    try reflexivity;
    match goal with |- context [hvm_buffered_io_intercept ?x] =>
      destruct (hvm_buffered_io_intercept x) as [r' w3] end;
    simpl; destruct (truthy r'); reflexivity.
Qed.

(** Completion only ever appends to the trace. *)
Lemma hvm_io_assist_appends : quiet (fun _ => false) hvm_io_assist.
Proof.
  assert (Hm : quiet (fun _ => false) handle_mmio)
    by (unfold handle_mmio; repeat quiet_step).
  unfold hvm_io_assist. repeat first [apply Hm | quiet_step].
Qed.

(** Whatever follows the first intercept call only appends to the trace. *)
Lemma dispatch_tail_appends (r : Z) (e : event)
    (c : world Env -> unit * world Env) :
  quiet (fun _ => false)
    (if truthy r then bind mark_resp_ready (fun _ => hvm_io_assist)
     else extcall_world e c).
Proof.
  destruct (truthy r); [|quiet_step].
  apply quiet_bind; [unfold mark_resp_ready; quiet_step|].
  intros _. apply hvm_io_assist_appends.
Qed.

(** C5, as the code has it: neither dispatcher tests the width.  For a
    width outside 1, 2, 4, 8 the slot is written all the same, width and
    incremented I/O count included, and handed to the intercept handler;
    when no handler claims the request it goes to the synchronous
    hand-off.  The one width test is in [hvm_buffered_io_send], which
    turns such a record away with the ring as it was. *)
Theorem dispatchers_do_not_validate_width
    (type addr count size value dir df value_is_ptr : Z) (w : world Env) :
  ~ (size = 1 \/ size = 2 \/ size = 4 \/ size = 8) ->
  let wp := pio_issued addr count size value dir df value_is_ptr w in
  let wm := mmio_issued type addr count size value dir df value_is_ptr w in
  let wp1 := after_call call_hvm_portio_intercept hvm_portio_intercept wp in
  let wm1 := after_call call_hvm_mmio_intercept hvm_mmio_intercept wm in
  let wm2 := after_call call_hvm_buffered_io_intercept
                        hvm_buffered_io_intercept wm1 in
  (ioreq.size (vio wp) = u64 size /\
   ioreq.io_count (vio wp) = u64 (ioreq.io_count (vio w) + 1) /\
   ioreq.size (vio wm) = u64 size /\
   ioreq.io_count (vio wm) = u64 (ioreq.io_count (vio w) + 1)) /\
  ((exists evs,
      trace (snd (send_pio_req addr count size value dir df value_is_ptr w))
      = trace wp ++ call_hvm_portio_intercept :: evs) /\
   (exists evs,
      trace (snd (send_mmio_req type addr count size value dir df
                                value_is_ptr w))
      = trace wm ++ call_hvm_mmio_intercept :: evs)) /\
  (fst (hvm_portio_intercept wp) = 0 ->
   snd (send_pio_req addr count size value dir df value_is_ptr w)
   = after_call call_hvm_send_assist_req hvm_send_assist_req wp1) /\
  (fst (hvm_mmio_intercept wm) = 0 ->
   fst (hvm_buffered_io_intercept wm1) = 0 ->
   snd (send_mmio_req type addr count size value dir df value_is_ptr w)
   = after_call call_hvm_send_assist_req hvm_send_assist_req wm2) /\
  (forall (p : ioreq_t) (w' : world Env),
     ioreq.size p = size ->
     fst (hvm_buffered_io_send p w') = 0 /\
     buf_page (snd (hvm_buffered_io_send p w')) = buf_page w').
Proof.
  intros Hsz. cbv zeta.
  split; [|split; [split|split; [|split]]].
  - unfold pio_issued, mmio_issued, pending_warning.
    destruct (negb _); repeat split.
  - rewrite send_pio_req_unfold. cbv zeta.
    destruct (truthy (fst (hvm_portio_intercept _)));
      [destruct (dispatch_tail_appends 1 call_hvm_send_assist_req
                   hvm_send_assist_req
                   (after_call call_hvm_portio_intercept hvm_portio_intercept
                      (pio_issued addr count size value dir df
                                  value_is_ptr w)))
         as (evs & Ht & _)
      |destruct (dispatch_tail_appends 0 call_hvm_send_assist_req
                   hvm_send_assist_req
                   (after_call call_hvm_portio_intercept hvm_portio_intercept
                      (pio_issued addr count size value dir df
                                  value_is_ptr w)))
         as (evs & Ht & _)];
      exists evs; simpl in Ht; rewrite Ht; unfold after_call; simpl;
      rewrite <- app_assoc; reflexivity.
  - rewrite send_mmio_req_unfold. cbv zeta.
    destruct (truthy (fst (hvm_mmio_intercept _))).
    + destruct (dispatch_tail_appends 1 call_hvm_send_assist_req
                  hvm_send_assist_req
                  (after_call call_hvm_mmio_intercept hvm_mmio_intercept
                     (mmio_issued type addr count size value dir df
                                  value_is_ptr w)))
        as (evs & Ht & _).
      exists evs. simpl in Ht. rewrite Ht. unfold after_call. simpl.
      rewrite <- app_assoc. reflexivity.
    + destruct (truthy (fst (hvm_buffered_io_intercept _)));
        [destruct (dispatch_tail_appends 1 call_hvm_send_assist_req
                     hvm_send_assist_req
                     (after_call call_hvm_buffered_io_intercept
                        hvm_buffered_io_intercept
                        (after_call call_hvm_mmio_intercept
                           hvm_mmio_intercept
                           (mmio_issued type addr count size value dir df
                                        value_is_ptr w))))
           as (evs & Ht & _)
        |destruct (dispatch_tail_appends 0 call_hvm_send_assist_req
                     hvm_send_assist_req
                     (after_call call_hvm_buffered_io_intercept
                        hvm_buffered_io_intercept
                        (after_call call_hvm_mmio_intercept
                           hvm_mmio_intercept
                           (mmio_issued type addr count size value dir df
                                        value_is_ptr w))))
           as (evs & Ht & _)];
        exists (call_hvm_buffered_io_intercept :: evs);
        simpl in Ht; rewrite Ht; unfold after_call; simpl;
        rewrite <- !app_assoc; reflexivity.
  - intros H0. rewrite send_pio_req_unfold. cbv zeta. rewrite H0. simpl.
    unfold extcall_world, after_call.
    destruct (hvm_send_assist_req _). reflexivity.
  - intros H0 H1. rewrite send_mmio_req_unfold. cbv zeta.
    rewrite H0. simpl. rewrite H1. simpl.
    unfold extcall_world, after_call.
    destruct (hvm_send_assist_req _). reflexivity.
  - intros p w' Hp.
    assert (Hne : ~ buffered_eligible p)
      by (intros (_ & _ & _ & Hs); apply Hsz; rewrite <- Hp; exact Hs).
    destruct (hvm_buffered_io_send_ineligible p w' Hne) as [-> | ->];
      split; reflexivity.
Qed.

End DispatchClaims.

(** C5 as stated fails: a 3-byte access is written to the slot, offered
    to the intercept handlers and handed off. *)
Lemma dispatchers_forward_odd_width :
  let w := demo_world 0 0 in
  let c := demo_collaborators true 0 0 in
  let wp := snd (@send_pio_req xen_abi unit c 0x80 1 3 0x55 0 0 0 w) in
  let wm := snd (@send_mmio_req xen_abi unit c 1 0xA0000 1 3 0x55 0 0 0 w) in
  ~ (3 = 1 \/ 3 = 2 \/ 3 = 4 \/ 3 = 8) /\
  vio wp <> vio w /\ ioreq.size (vio wp) = 3 /\
  trace wp = [call_hvm_portio_intercept; call_hvm_send_assist_req] /\
  vio wm <> vio w /\ ioreq.size (vio wm) = 3 /\
  trace wm = [call_hvm_mmio_intercept; call_hvm_buffered_io_intercept;
              call_hvm_send_assist_req].
Proof.
  cbv zeta. split; [lia|]. crunch.
Qed.

Lemma dispatchers_do_not_validate_width_witness :
  ~ (3 = 1 \/ 3 = 2 \/ 3 = 4 \/ 3 = 8) /\
  ioreq.size
    (vio (@pio_issued xen_abi unit 0x80 1 3 0x55 0 0 0 (demo_world 0 0)))
  = u64 3.
Proof.
  assert (Hsz : ~ (3 = 1 \/ 3 = 2 \/ 3 = 4 \/ 3 = 8)) by lia.
  split; [exact Hsz|].
  exact (proj1 (proj1 (@dispatchers_do_not_validate_width xen_abi unit
                         (demo_collaborators true 0 0)
                         1 0x80 1 3 0x55 0 0 0 (demo_world 0 0) Hsz))).
Defined.

(** ** The passthrough port interceptor *)

Section PassthroughClaims.

Context `{abi : ioreq_abi} {Env : Type} {ext : collaborators Env}.

(** The scan returns an entry of the list whose range holds the port. *)
Lemma g2m_lookup_sound (gp : Z) (l : list g2m_ioport_t) (g : g2m_ioport_t) :
  g2m_lookup gp l = Some g ->
  g ∈ l /\
  g2m_ioport.gport g <= gp < u32 (g2m_ioport.gport g + g2m_ioport.np g).
Proof.
  induction l as [|g0 l IH]; simpl; [discriminate|].
  destruct (_ && _) eqn:Hm.
  - intros [= <-]. apply andb_true_iff in Hm as [H1 H2].
    rewrite Z.geb_leb in H1. apply Z.leb_le in H1. apply Z.ltb_lt in H2.
    split; [apply list_elem_of_here | lia].
  - intros H. destruct (IH H) as [Hin Hr].
    split; [apply list_elem_of_further, Hin | exact Hr].
Qed.

(** The scan finds an entry whenever some entry's range holds the port. *)
Lemma g2m_lookup_complete (gp : Z) (l : list g2m_ioport_t) (g0 : g2m_ioport_t) :
  g0 ∈ l ->
  g2m_ioport.gport g0 <= gp < u32 (g2m_ioport.gport g0 + g2m_ioport.np g0) ->
  exists g, g2m_lookup gp l = Some g.
Proof.
  intros Hin Hr. induction l as [|g1 l IH]; [inversion Hin|].
  simpl. destruct (_ && _) eqn:Hm; [eauto|].
  apply elem_of_cons in Hin as [-> | Hin]; [|auto].
  exfalso. apply andb_false_iff in Hm as [H | H].
  - rewrite Z.geb_leb in H. apply Z.leb_gt in H. lia.
  - apply Z.ltb_ge in H. lia.
Qed.

(** C7: when the guest port of a request lies in the range of a mapping
    entry, [dpci_ioport_intercept] settles on such an entry [g] (the first
    in the list), takes the guest port less the start of its guest range
    plus the start of its host range as the host port, and, if the
    permission check from that host port to it plus the width less one
    is denied, prints the diagnostic and returns 0: the record is as it
    was and no port instruction and no guest copy is made. *)
Theorem dpci_ioport_intercept_denied
    (p : ioreq_t) (w : world Env) (g0 : g2m_ioport_t) :
  let gp := u32 (ioreq.addr p) in
  g0 ∈ g2m_ioport_list (env w) ->
  g2m_ioport.gport g0 <= gp < u32 (g2m_ioport.gport g0 + g2m_ioport.np g0) ->
  exists g,
    g2m_lookup gp (g2m_ioport_list (env w)) = Some g /\
    g ∈ g2m_ioport_list (env w) /\
    g2m_ioport.gport g <= gp < u32 (g2m_ioport.gport g + g2m_ioport.np g) /\
    let host := u32 ((gp - g2m_ioport.gport g) + g2m_ioport.mport g) in
    (ioports_access_permitted (env w) host (u64 (host + ioreq.size p - 1))
     = false ->
     dpci_ioport_intercept p w
     = ((0, p),
        set_trace
          (trace w ++ [gdprintk "Error: access to gport=0x%x denied!"]) w) /\
     exists evs,
       trace (snd (dpci_ioport_intercept p w)) = trace w ++ evs /\
       count_events is_host_port_access evs = O /\
       count_events is_guest_copy evs = O).
Proof.
  intros gp Hin Hr.
  destruct (g2m_lookup_complete gp _ g0 Hin Hr) as [g Hg].
  destruct (g2m_lookup_sound gp _ g Hg) as [Hing Hrg].
  exists g. split; [exact Hg|]. split; [exact Hing|]. split; [exact Hrg|].
  intros host Hdeny.
  assert (Hrun : dpci_ioport_intercept p w
                 = ((0, p),
                    set_trace
                      (trace w
                       ++ [gdprintk "Error: access to gport=0x%x denied!"])
                      w)).
  { unfold dpci_ioport_intercept, bind, get. fold gp. rewrite Hg.
    unfold host_port. fold host. rewrite Hdeny. reflexivity. }
  split; [exact Hrun|]. rewrite Hrun. eexists. repeat split.
Qed.

(** The loop of [dpci_ioport_read] only ever appends to the trace. *)
Lemma dpci_ioport_read_loop_appends (fuel : nat) (mport len i : Z)
    (p : ioreq_t) :
  quiet (fun _ => false) (dpci_ioport_read_loop fuel mport len i p).
Proof.
  revert i p. induction fuel as [|fuel IH]; intros i p; simpl.
  - apply quiet_ret.
  - destruct (i <? len); [|apply quiet_ret].
    apply quiet_bind.
    + repeat quiet_step.
    + intros [z|]; [|apply quiet_ret].
      destruct (truthy _); [|apply IH].
      apply quiet_bind; [quiet_step|]. intros rc.
      destruct (truthy rc); [repeat quiet_step | apply IH].
Qed.

(** Where the first copy of a pointer-indirected byte read goes: to the
    value just read from the port, not to the address the record came
    with. *)
Lemma dpci_ioport_read_first_copy (mport : Z) (p : ioreq_t) (w : world Env) :
  ioreq.size p = 1 -> truthy (ioreq.data_is_ptr p) = true ->
  0 < u64 (ioreq.count p * ioreq.size p) ->
  let z := bitfield 8 (fst (inb mport (env w))) in
  exists evs,
    trace (snd (dpci_ioport_read mport p w))
    = trace w ++ call_inb mport
              :: call_hvm_copy_to_guest_phys (u64 (z + 0)) z 1 :: evs.
Proof.
  intros Hs Hp Hlen z.
  unfold dpci_ioport_read, loop_fuel. cbv zeta. unfold bind at 1.
  simpl dpci_ioport_read_loop.
  apply Z.ltb_lt in Hlen. rewrite Hlen, Hs. simpl (1 =? 1).
  unfold bind, extcall, ret. cbv iota. subst z.
  destruct (inb mport (env w)) as [v e1]. simpl.
  rewrite Hp. simpl.
  destruct (hvm_copy_to_guest_phys _ _ _ e1) as [rc e2]. simpl.
  destruct (truthy rc).
  - unfold emit, modify. simpl. eexists.
    rewrite <- !app_assoc. simpl. reflexivity.
  - match goal with |- context [dpci_ioport_read_loop ?f ?m ?l ?i ?q ?x] =>
      destruct (dpci_ioport_read_loop_appends f m l i q x) as (evs & Ht & _);
      destruct (dpci_ioport_read_loop f m l i q x) as [r w3]
    end.
    simpl in *. rewrite Ht. eexists.
    rewrite <- !app_assoc. simpl. reflexivity.
Qed.

End PassthroughClaims.

Lemma dpci_ioport_intercept_denied_witness :
  let c := demo_collaborators false 0 0 in
  let w := demo_world 0 0 in
  let g0 := g2m_ioport.mk 0x300 0x3F0 0x10 in
  g0 ∈ @g2m_ioport_list unit c (env w) /\
  g2m_ioport.gport g0 <= u32 (ioreq.addr inb_305)
    < u32 (g2m_ioport.gport g0 + g2m_ioport.np g0) /\
  @dpci_ioport_intercept xen_abi unit c inb_305 w
  = ((0, inb_305),
     set_trace [gdprintk "Error: access to gport=0x%x denied!"] w).
Proof.
  cbv zeta.
  assert (Hin : g2m_ioport.mk 0x300 0x3F0 0x10
                ∈ @g2m_ioport_list unit (demo_collaborators false 0 0)
                    (env (demo_world 0 0)))
    by apply list_elem_of_here.
  assert (Hr : g2m_ioport.gport (g2m_ioport.mk 0x300 0x3F0 0x10)
               <= u32 (ioreq.addr inb_305)
               < u32 (g2m_ioport.gport (g2m_ioport.mk 0x300 0x3F0 0x10)
                      + g2m_ioport.np (g2m_ioport.mk 0x300 0x3F0 0x10)))
    by crunch.
  split; [exact Hin | split; [exact Hr|]].
  destruct (@dpci_ioport_intercept_denied xen_abi unit
              (demo_collaborators false 0 0) inb_305 (demo_world 0 0)
              _ Hin Hr) as (g & _ & _ & _ & Hdeny).
  exact (proj1 (Hdeny eq_refl)).
Defined.

(** The example of the specification: with guest ports [0x300, 0x310)
    mapped to host ports from [0x3F0], a one-byte read of guest port
    [0x305] reads host port [0x3F5] when permitted, and reads nothing and
    is not handled when denied. *)
Example dpci_ioport_intercept_0x305 :
  (let r := @dpci_ioport_intercept xen_abi unit
              (demo_collaborators true 0x42 0) inb_305 (demo_world 0 0) in
   fst (fst r) = 1 /\ ioreq.data (snd (fst r)) = 0x42 /\
   trace (snd r) = [call_inb 0x3F5]) /\
  (let r := @dpci_ioport_intercept xen_abi unit
              (demo_collaborators false 0x42 0) inb_305 (demo_world 0 0) in
   fst (fst r) = 0 /\ snd (fst r) = inb_305 /\
   trace (snd r) = [gdprintk "Error: access to gport=0x%x denied!"]).
Proof. crunch. Qed.

(** C8 fails on the code: the two words of a string read into guest
    memory at [0x1000] are copied to [0x42] and [0x44], the value read from
    the port plus the byte offset, because [p->data] is overwritten with
    that value before it is used as the destination. *)
Lemma dpci_ioport_read_clobbers_destination :
  ioreq.data rep_insw = 0x1000 /\
  trace (snd (@dpci_ioport_read unit (demo_collaborators true 0x42 0)
                0x3F5 rep_insw (demo_world 0 0)))
  = [call_inw 0x3F5; call_hvm_copy_to_guest_phys 0x42 0x42 2;
     call_inw 0x3F5; call_hvm_copy_to_guest_phys 0x44 0x42 2].
Proof. crunch. Qed.

(** ** The read loop comes to its end *)

Section ReadLoopTermination.

Context {Env : Type} {ext : collaborators Env}.

Lemma u64_step (k s : Z) : u64 (u64 (k * s) + s) = u64 ((k + 1) * s).
Proof.
  unfold u64. rewrite Zplus_mod_idemp_l. f_equal. lia.
Qed.

(** After [k] rounds the counter is the [k]-th multiple of the width, so
    the test [i < length] fails at the latest when [k] reaches the count:
    the fuel [dpci_ioport_read] starts with is never used up. *)
Lemma dpci_ioport_read_loop_ends (fuel : nat) (mport k : Z) (p : ioreq_t)
    (w : world Env) :
  0 <= k <= ioreq.count p ->
  fuel = S (Z.to_nat (ioreq.count p - k)) ->
  snd (fst (dpci_ioport_read_loop fuel mport
              (u64 (ioreq.count p * ioreq.size p))
              (u64 (k * ioreq.size p)) p w)) = true.
Proof.
  revert k p w. induction fuel as [|fuel IH]; intros k p w Hk Hf;
    [discriminate|].
  simpl. destruct (_ <? _) eqn:Hlt; [|reflexivity].
  assert (Hk1 : k < ioreq.count p).
  { destruct (Z.eq_dec k (ioreq.count p)) as [-> | Hne]; [|lia].
    rewrite Z.ltb_irrefl in Hlt. discriminate. }
  assert (Hf' : fuel = S (Z.to_nat (ioreq.count p - (k + 1)))) by lia.
  assert (Hnext : forall z w',
            snd (fst (dpci_ioport_read_loop fuel mport
                        (u64 (ioreq.count p * ioreq.size p))
                        (u64 (u64 (k * ioreq.size p) + ioreq.size p))
                        (ioreq.set_data z p) w')) = true).
  { intros z w'. rewrite u64_step.
    apply (IH (k + 1) (ioreq.set_data z p) w'); simpl; [lia | exact Hf']. }
  assert (Hrest : forall z w',
            snd (fst ((if truthy (ioreq.data_is_ptr (ioreq.set_data z p))
                       then
                         bind (extcall
                                 (call_hvm_copy_to_guest_phys
                                    (u64 (ioreq.data (ioreq.set_data z p)
                                          + u64 (k * ioreq.size p)))
                                    z (int32 (ioreq.size (ioreq.set_data z p))))
                                 (hvm_copy_to_guest_phys
                                    (u64 (ioreq.data (ioreq.set_data z p)
                                          + u64 (k * ioreq.size p)))
                                    z (int32 (ioreq.size (ioreq.set_data z p)))))
                           (fun rc =>
                              if truthy rc
                              then bind (emit (gdprintk
                                           "Error: couldn't copy to hvm phys"))
                                        (fun _ => ret (ioreq.set_data z p, true))
                              else dpci_ioport_read_loop fuel mport
                                     (u64 (ioreq.count p * ioreq.size p))
                                     (u64 (u64 (k * ioreq.size p)
                                           + ioreq.size (ioreq.set_data z p)))
                                     (ioreq.set_data z p))
                       else dpci_ioport_read_loop fuel mport
                              (u64 (ioreq.count p * ioreq.size p))
                              (u64 (u64 (k * ioreq.size p)
                                    + ioreq.size (ioreq.set_data z p)))
                              (ioreq.set_data z p)) w')) = true).
  { intros z w'. simpl ioreq.size. destruct (truthy _); [|apply Hnext].
    unfold bind at 1, extcall.
    destruct (hvm_copy_to_guest_phys _ _ _ _) as [rc e]. simpl.
    destruct (truthy rc); [reflexivity | apply Hnext]. }
  unfold bind at 1.
  destruct (ioreq.size p =? 1);
    [|destruct (ioreq.size p =? 2); [|destruct (ioreq.size p =? 4)]];
    unfold bind at 1, extcall at 1;
    try (match goal with |- context [?f mport (env w)] =>
           destruct (f mport (env w)) as [v e] end;
         simpl; apply Hrest).
  reflexivity.
Qed.

(** [dpci_ioport_read] always runs its loop to the end. *)
Lemma dpci_ioport_read_ends (mport : Z) (p : ioreq_t) (w : world Env) :
  0 <= ioreq.count p ->
  snd (fst (dpci_ioport_read_loop (loop_fuel p) mport
              (u64 (ioreq.count p * ioreq.size p)) 0 p w)) = true.
Proof.
  intros Hc.
  apply (dpci_ioport_read_loop_ends (loop_fuel p) mport 0 p w); [lia|].
  unfold loop_fuel. f_equal. f_equal. lia.
Qed.

End ReadLoopTermination.

(** ** The direction switch *)

Section DirectionClaims.

Context `{abi : ioreq_abi} {Env : Type} {ext : collaborators Env}.




End DirectionClaims.



(** ** More about the buffered ring *)

Lemma mod_neq_of_small_gap (a b n : Z) :
  0 < a - b < n -> a mod n <> b mod n.
Proof.
  intros Hgap Heq.
  assert (H : (a - b) mod n = 0)
    by (rewrite Zminus_mod, Heq, Z.sub_diag; apply Z.mod_0_l; lia).
  rewrite Z.mod_small in H by lia. lia.
Qed.

Lemma qword_split (d : Z) :
  0 <= d < 2 ^ 64 -> d mod 2 ^ 32 + 2 ^ 32 * ((d / 2 ^ 32) mod 2 ^ 32) = d.
Proof.
  intros Hd.
  assert (Hq : 0 <= d / 2 ^ 32 < 2 ^ 32).
  { split; [apply Z.div_pos; lia|].
    apply Z.div_lt_upper_bound; [lia|].
    change (2 ^ 32 * 2 ^ 32) with (2 ^ 64). lia. }
  rewrite (Z.mod_small (d / 2 ^ 32)) by exact Hq.
  pose proof (Z.div_mod d (2 ^ 32) ltac:(lia)). lia.
Qed.

(** The slot array keeps its length through the one or two stores. *)
Lemma enqueue_slots_length (b : bool) (i0 i1 : nat) (lo hi : buf_ioreq_t)
    (l : list buf_ioreq_t) :
  length (if b then <[i1 := hi]> (<[i0 := lo]> l) else <[i0 := lo]> l)
  = length l.
Proof. destruct b; rewrite ?length_insert; reflexivity. Qed.

Section BufferedRingExtras.

Context `{abi : ioreq_abi} {Env : Type}.
Implicit Types (p : ioreq_t) (w : world Env) (pg : buffered_iopage_t).

(** Occupancy after a successful enqueue. *)
Lemma used_slots_advance pg (n : Z) :
  slot_num_ok -> 1 <= n -> n <= free_slots pg ->
  u32 (u32 (write_pointer pg + n) - read_pointer pg) = used_slots pg + n.
Proof.
  intros Hn H1 Hf. rewrite u32_advance.
  unfold free_slots, used_slots, slot_num_ok in *.
  pose proof (u32_range (write_pointer pg - read_pointer pg)).
  apply u32_small. lia2.
Qed.

(** X1: what the consumer reads back.  After a successful enqueue whose
    pointer increment does not wrap, the slot at the old write pointer
    carries the record's type, direction and address unchanged and a
    width code that stands for the record's width; for widths 1, 2 and 4
    its data is the low 32 bits of the record's data, and for width 8 it
    and the next slot together give back the 64-bit data. *)
Theorem buffered_slots_decode p w :
  slot_num_ok -> page_wf (buf_page w) -> buffered_eligible p ->
  ioreq_wf p ->
  write_pointer (buf_page w) + 1 < 2 ^ 32 ->
  fst (hvm_buffered_io_send p w) = 1 ->
  let pg := buf_page w in
  let pg' := buf_page (snd (hvm_buffered_io_send p w)) in
  exists lo,
    slot_at pg' (write_pointer pg mod IOREQ_BUFFER_SLOT_NUM) = Some lo /\
    buf_ioreq.type lo = ioreq.type p /\
    buf_ioreq.dir lo = ioreq.dir p /\
    buf_ioreq.addr lo = ioreq.addr p /\
    slot_width lo = ioreq.size p /\
    (ioreq.size p <> 8 -> buf_ioreq.data lo = ioreq.data p mod 2 ^ 32) /\
    (ioreq.size p = 8 ->
     exists hi,
       slot_at pg' ((write_pointer pg + 1) mod IOREQ_BUFFER_SLOT_NUM)
       = Some hi /\
       buf_ioreq.type hi = ioreq.type p /\
       buf_ioreq.dir hi = ioreq.dir p /\
       buf_ioreq.addr hi = ioreq.addr p /\
       slot_width hi = 8 /\
       qword_of_slots lo hi = ioreq.data p).
Proof.
  intros Hn (Hrp & Hwp & Hlen) He Hwf Hnw. cbv zeta.
  assert (Hpos : 0 < IOREQ_BUFFER_SLOT_NUM) by (unfold slot_num_ok in Hn; lia).
  destruct Hwf as (Ha & _ & _ & Hd & _ & _ & Hdir & _ & Ht & _).
  assert (Ha20 : ioreq.addr p < 2 ^ 20) by (destruct He as (H & _); exact H).
  rewrite (hvm_buffered_io_send_eligible p w Hn He).
  destruct (decide _) as [Hfree | Hfree]; simpl; [intros _|discriminate].
  assert (Hbt : bitfield 8 (ioreq.type p) = ioreq.type p)
    by (apply Z.mod_small; lia).
  assert (Hbd : bitfield 1 (ioreq.dir p) = ioreq.dir p)
    by (apply Z.mod_small; lia).
  assert (Hba : bitfield 20 (ioreq.addr p) = ioreq.addr p)
    by (apply Z.mod_small; lia).
  unfold slot_at. simpl.
  destruct (ioreq.size p =? 8) eqn:H8.
  - apply Z.eqb_eq in H8.
    assert (Hreq : slots_required p = 2)
      by (unfold slots_required; rewrite H8; reflexivity).
    assert (Hused : 0 <= used_slots (buf_page w))
      by (apply u32_range).
    assert (Hn2 : 2 <= IOREQ_BUFFER_SLOT_NUM)
      by (unfold free_slots in Hfree; lia).
    pose proof (successive_slots_distinct IOREQ_BUFFER_SLOT_NUM
                  (write_pointer (buf_page w)) Hn2 ltac:(lia) Hnw) as Hdist.
    rewrite (u32_small (write_pointer (buf_page w) + 1)) in * by lia.
    eexists. split.
    + rewrite list_lookup_insert_ne
        by (intros Heq; apply Hdist; symmetry;
            eapply slot_index_inj; eassumption).
      apply list_lookup_insert_eq. apply slot_index_lt; assumption.
    + simpl. rewrite Hbt, Hbd, Hba, H8.
      do 4 (split; [reflexivity|]).
      split; [intros Hc; exfalso; apply Hc; reflexivity|].
      intros _. eexists. split.
      * apply list_lookup_insert_eq. rewrite length_insert.
        apply slot_index_lt; assumption.
      * simpl. do 4 (split; [reflexivity|]).
        unfold qword_of_slots, u32. simpl.
        rewrite Z.shiftr_div_pow2 by lia. apply qword_split, Hd.
  - apply Z.eqb_neq in H8. eexists. split.
    + apply list_lookup_insert_eq. apply slot_index_lt; assumption.
    + simpl. rewrite Hbt, Hbd, Hba.
      do 3 (split; [reflexivity|]).
      split; [|split; [reflexivity | intros Hc; contradiction]].
      unfold slot_width. simpl.
      destruct He as (_ & _ & _ & [Hs | [Hs | [Hs | Hs]]]);
        rewrite Hs; reflexivity.
Qed.

(** X2: an enqueue never overwrites a record the consumer has not yet
    taken.  When the pointers have not wrapped, every position from the
    read pointer up to the write pointer addresses the same slot contents
    after the call as before it, whatever the request. *)
Theorem enqueue_keeps_pending_slots p w (j : Z) :
  slot_num_ok -> page_wf (buf_page w) ->
  read_pointer (buf_page w) <= write_pointer (buf_page w) ->
  write_pointer (buf_page w) + 1 < 2 ^ 32 ->
  read_pointer (buf_page w) <= j < write_pointer (buf_page w) ->
  slot_at (buf_page (snd (hvm_buffered_io_send p w)))
          (j mod IOREQ_BUFFER_SLOT_NUM)
  = slot_at (buf_page w) (j mod IOREQ_BUFFER_SLOT_NUM).
Proof.
  intros Hn (Hrp & Hwp & Hlen) Hle Hnw Hj.
  assert (Hpos : 0 < IOREQ_BUFFER_SLOT_NUM) by (unfold slot_num_ok in Hn; lia).
  destruct (decide (buffered_eligible p)) as [He | Hne];
    [|destruct (hvm_buffered_io_send_ineligible p w Hne) as [-> | ->];
      reflexivity].
  rewrite (hvm_buffered_io_send_eligible p w Hn He).
  destruct (decide _) as [Hfree | Hfree]; simpl; [|reflexivity].
  unfold free_slots, used_slots in Hfree.
  rewrite (u32_small (_ - _)) in Hfree by lia.
  pose proof (slots_required_cases p) as Hreq.
  assert (H0 : Z.to_nat (write_pointer (buf_page w) mod IOREQ_BUFFER_SLOT_NUM)
               <> Z.to_nat (j mod IOREQ_BUFFER_SLOT_NUM)).
  { intros Heq. apply slot_index_inj in Heq; [|exact Hpos].
    revert Heq. apply mod_neq_of_small_gap. lia. }
  unfold slot_at. simpl.
  destruct (ioreq.size p =? 8) eqn:H8.
  - assert (Hr2 : slots_required p = 2)
      by (unfold slots_required; rewrite H8; reflexivity).
    rewrite (u32_small (write_pointer (buf_page w) + 1)) by lia.
    rewrite list_lookup_insert_ne.
    + apply list_lookup_insert_ne, H0.
    + intros Heq. apply slot_index_inj in Heq; [|exact Hpos].
      revert Heq. apply mod_neq_of_small_gap. lia.
  - apply list_lookup_insert_ne, H0.
Qed.

(** X4: the order of the rejections.  A record that fails the shape test
    (address above [0xfffff], pointer-indirected, or count other than 1)
    is rejected without a word, whatever its width; a record that passes
    it and has an unsupported width is rejected with the one diagnostic.
    Nothing else changes in either case. *)
Theorem hvm_buffered_io_send_rejection_order p w :
  ((ioreq.addr p > 0xfffff \/ ioreq.data_is_ptr p <> 0 \/ ioreq.count p <> 1)
   -> hvm_buffered_io_send p w = (0, w)) /\
  (ioreq.addr p <= 0xfffff -> ioreq.data_is_ptr p = 0 -> ioreq.count p = 1 ->
   ~ (ioreq.size p = 1 \/ ioreq.size p = 2 \/ ioreq.size p = 4 \/
      ioreq.size p = 8) ->
   hvm_buffered_io_send p w
   = (0, set_trace
           (trace w ++ [gdprintk "unexpected ioreq size:%PRId64"]) w)).
Proof.
  split.
  - intros Hshape. unfold hvm_buffered_io_send.
    assert (Ht : (ioreq.addr p >? 0xfffff) || truthy (ioreq.data_is_ptr p)
                 || negb (ioreq.count p =? 1) = true).
    { unfold truthy. destruct Hshape as [H | [H | H]].
      - apply Z.gtb_gt in H. rewrite H. reflexivity.
      - apply Z.eqb_neq in H. rewrite H. simpl.
        rewrite orb_true_r. reflexivity.
      - apply Z.eqb_neq in H. rewrite H. simpl. apply orb_true_r. }
    rewrite Ht. reflexivity.
  - intros Ha Hp Hc Hs. unfold hvm_buffered_io_send.
    assert (Ht : (ioreq.addr p >? 0xfffff) || truthy (ioreq.data_is_ptr p)
                 || negb (ioreq.count p =? 1) = false).
    { rewrite Hp, Hc. unfold truthy. simpl. rewrite !orb_false_r.
      rewrite Z.gtb_ltb. apply Z.ltb_ge. exact Ha. }
    rewrite Ht. unfold switch_size.
    destruct (ioreq.size p =? 1) eqn:H1;
      [apply Z.eqb_eq in H1; tauto|].
    destruct (ioreq.size p =? 2) eqn:H2;
      [apply Z.eqb_eq in H2; tauto|].
    destruct (ioreq.size p =? 4) eqn:H4;
      [apply Z.eqb_eq in H4; tauto|].
    destruct (ioreq.size p =? 8) eqn:H8;
      [apply Z.eqb_eq in H8; tauto|].
    reflexivity.
Qed.

(** X5: what [hvm_buffered_io_send] leaves alone.  Whatever the request,
    the ring page stays well formed (pointers in [unsigned int] range,
    slot array length unchanged), the read pointer is not moved, and the
    request slot, the vCPU flags and the collaborators' state are as they
    were; the only events it can add are diagnostics. *)
Theorem hvm_buffered_io_send_frame p w :
  slot_num_ok -> page_wf (buf_page w) ->
  let w' := snd (hvm_buffered_io_send p w) in
  page_wf (buf_page w') /\
  read_pointer (buf_page w') = read_pointer (buf_page w) /\
  length (buf_ioreq (buf_page w')) = length (buf_ioreq (buf_page w)) /\
  vio w' = vio w /\ hvm_vcpu w' = hvm_vcpu w /\ env w' = env w /\
  exists evs,
    trace w' = trace w ++ evs /\
    count_events (fun e => negb (is_diagnostic e)) evs = O.
Proof.
  intros Hn Hwf. cbv zeta.
  destruct (decide (buffered_eligible p)) as [He | Hne].
  - rewrite (hvm_buffered_io_send_eligible p w Hn He).
    destruct (decide _) as [Hfree | Hfree]; simpl.
    + destruct Hwf as (Hrp & Hwp & Hlen).
      split; [|split; [reflexivity|split; [apply enqueue_slots_length|]]].
      * unfold page_wf. simpl.
        split; [exact Hrp | split; [apply u32_range|]].
        rewrite enqueue_slots_length. exact Hlen.
      * do 3 (split; [reflexivity|]).
        exists []. rewrite app_nil_r. auto.
    + split; [exact Hwf|]. do 5 (split; [reflexivity|]).
      exists []. rewrite app_nil_r. auto.
  - destruct (hvm_buffered_io_send_ineligible p w Hne) as [-> | ->]; simpl;
      (split; [exact Hwf|]); do 5 (split; [reflexivity|]).
    + exists []. rewrite app_nil_r. auto.
    + eexists. split; reflexivity.
Qed.

End BufferedRingExtras.

Section BurstCapacity.

Context `{abi : ioreq_abi} {Env : Type}.
Implicit Types (p : ioreq_t) (w : world Env).

(** X3: how many records fit.  Of [n] successive calls with the same
    eligible record, exactly as many return 1 as the free slots hold
    records of its size (one slot each, two for width 8), and the
    occupancy grows by the slots of those and no more. *)
Theorem hvm_buffered_io_send_n_capacity (n : nat) p w :
  slot_num_ok -> buffered_eligible p -> ring_bounded (buf_page w) ->
  let r := hvm_buffered_io_send_n n p w in
  fst r = Z.min (Z.of_nat n) (free_slots (buf_page w) / slots_required p) /\
  used_slots (buf_page (snd r))
  = used_slots (buf_page w) + slots_required p * fst r.
Proof.
  intros Hn He. revert w. cbv zeta.
  pose proof (slots_required_cases p) as Hreq.
  induction n as [|n IH]; intros w Hb.
  - simpl. unfold ring_bounded, free_slots in *.
    assert (0 <= (IOREQ_BUFFER_SLOT_NUM - used_slots (buf_page w))
                 / slots_required p) by (apply Z.div_pos; lia).
    split; lia.
  - assert (Hstep : hvm_buffered_io_send_n (S n) p w
                    = let (a, w1) := hvm_buffered_io_send p w in
                      let (k, w2) := hvm_buffered_io_send_n n p w1 in
                      (a + k, w2)) by reflexivity.
    rewrite Hstep, (hvm_buffered_io_send_eligible p w Hn He).
    destruct (decide _) as [Hfree | Hfree].
    + match goal with |- context [hvm_buffered_io_send_n n p ?x] =>
        set (w1 := x) end.
      assert (Hu1 : used_slots (buf_page w1)
                    = used_slots (buf_page w) + slots_required p).
      { subst w1. unfold used_slots at 1. simpl.
        apply used_slots_advance; [exact Hn | lia | exact Hfree]. }
      assert (Hb1 : ring_bounded (buf_page w1)).
      { unfold ring_bounded. rewrite Hu1. unfold free_slots in Hfree. lia. }
      destruct (IH w1 Hb1) as [Hk Hu]. clearbody w1.
      destruct (hvm_buffered_io_send_n n p w1) as [k w2].
      cbn [fst snd] in *. rewrite Hu, Hu1, Hk.
      unfold free_slots in *. rewrite Hu1.
      replace (IOREQ_BUFFER_SLOT_NUM
               - (used_slots (buf_page w) + slots_required p))
        with (IOREQ_BUFFER_SLOT_NUM - used_slots (buf_page w)
              + (-1) * slots_required p) by lia.
      rewrite Z.div_add by lia.
      assert (1 <= (IOREQ_BUFFER_SLOT_NUM - used_slots (buf_page w))
                   / slots_required p)
        by (apply Z.div_le_lower_bound; lia).
      split; lia.
    + assert (Hdiv : free_slots (buf_page w) / slots_required p = 0).
      { apply Z.div_small. unfold ring_bounded, free_slots in *. lia. }
      destruct (IH w Hb) as [Hk Hu].
      destruct (hvm_buffered_io_send_n n p w) as [k w2].
      cbn [fst snd] in *. rewrite Hu, Hk, Hdiv. split; lia.
Qed.

End BurstCapacity.

Lemma buffered_slots_decode_witness :
  @slot_num_ok xen_abi /\ @page_wf xen_abi (buf_page (demo_world 0 0)) /\
  buffered_eligible qword_write /\ ioreq_wf qword_write /\
  write_pointer (buf_page (demo_world 0 0)) + 1 < 2 ^ 32 /\
  fst (@hvm_buffered_io_send xen_abi unit qword_write (demo_world 0 0)) = 1 /\
  exists lo,
    slot_at (buf_page (snd (@hvm_buffered_io_send xen_abi unit qword_write
                              (demo_world 0 0))))
            (write_pointer (buf_page (demo_world 0 0))
             mod @IOREQ_BUFFER_SLOT_NUM xen_abi) = Some lo /\
    slot_width lo = ioreq.size qword_write.
Proof.
  assert (Hn : @slot_num_ok xen_abi) by crunch.
  assert (Hw : @page_wf xen_abi (buf_page (demo_world 0 0))) by crunch.
  assert (He : buffered_eligible qword_write)
    by (unfold buffered_eligible; simpl; lia).
  assert (Hf : ioreq_wf qword_write) by (unfold ioreq_wf; simpl; lia).
  assert (Hp : write_pointer (buf_page (demo_world 0 0)) + 1 < 2 ^ 32)
    by (simpl; lia).
  assert (H1 : fst (@hvm_buffered_io_send xen_abi unit qword_write
                      (demo_world 0 0)) = 1) by reflexivity.
  repeat (split; [assumption|]).
  destruct (@buffered_slots_decode xen_abi unit qword_write (demo_world 0 0)
              Hn Hw He Hf Hp H1) as (lo & Hlo & _ & _ & _ & Hwd & _).
  exists lo. split; [exact Hlo | exact Hwd].
Defined.

Lemma enqueue_keeps_pending_slots_witness :
  @slot_num_ok xen_abi /\ @page_wf xen_abi (buf_page (demo_world 3 5)) /\
  read_pointer (buf_page (demo_world 3 5))
  <= write_pointer (buf_page (demo_world 3 5)) /\
  write_pointer (buf_page (demo_world 3 5)) + 1 < 2 ^ 32 /\
  read_pointer (buf_page (demo_world 3 5)) <= 4
    < write_pointer (buf_page (demo_world 3 5)) /\
  slot_at (buf_page (snd (@hvm_buffered_io_send xen_abi unit qword_write
                            (demo_world 3 5))))
          (4 mod @IOREQ_BUFFER_SLOT_NUM xen_abi)
  = slot_at (buf_page (demo_world 3 5)) (4 mod @IOREQ_BUFFER_SLOT_NUM xen_abi).
Proof.
  assert (Hn : @slot_num_ok xen_abi) by crunch.
  assert (Hw : @page_wf xen_abi (buf_page (demo_world 3 5))) by crunch.
  assert (Hle : read_pointer (buf_page (demo_world 3 5))
                <= write_pointer (buf_page (demo_world 3 5)))
    by (simpl; lia).
  assert (Hp : write_pointer (buf_page (demo_world 3 5)) + 1 < 2 ^ 32)
    by (simpl; lia).
  assert (Hj : read_pointer (buf_page (demo_world 3 5)) <= 4
               < write_pointer (buf_page (demo_world 3 5)))
    by (simpl; lia).
  repeat (split; [assumption|]).
  exact (@enqueue_keeps_pending_slots xen_abi unit qword_write
           (demo_world 3 5) 4 Hn Hw Hle Hp Hj).
Defined.

Lemma hvm_buffered_io_send_n_capacity_witness :
  @slot_num_ok xen_abi /\ buffered_eligible qword_write /\
  @ring_bounded xen_abi (buf_page (demo_world 0 506)) /\
  fst (@hvm_buffered_io_send_n xen_abi unit 4 qword_write
         (demo_world 0 506))
  = Z.min 4 (@free_slots xen_abi (buf_page (demo_world 0 506))
             / slots_required qword_write).
Proof.
  assert (Hn : @slot_num_ok xen_abi) by crunch.
  assert (He : buffered_eligible qword_write)
    by (unfold buffered_eligible; simpl; lia).
  assert (Hb : @ring_bounded xen_abi (buf_page (demo_world 0 506)))
    by crunch.
  repeat (split; [assumption|]).
  exact (proj1 (@hvm_buffered_io_send_n_capacity xen_abi unit 4 qword_write
                  (demo_world 0 506) Hn He Hb)).
Defined.

Lemma hvm_buffered_io_send_rejection_order_witness :
  ioreq.addr (ioreq.mk 0x100000 3 1 0 0 0 0 0 1 0) > 0xfffff /\
  @hvm_buffered_io_send xen_abi unit (ioreq.mk 0x100000 3 1 0 0 0 0 0 1 0)
     (demo_world 0 0)
  = (0, demo_world 0 0).
Proof.
  assert (Ha : ioreq.addr (ioreq.mk 0x100000 3 1 0 0 0 0 0 1 0) > 0xfffff)
    by (simpl; lia).
  split; [exact Ha|].
  exact (proj1 (@hvm_buffered_io_send_rejection_order xen_abi unit
                  (ioreq.mk 0x100000 3 1 0 0 0 0 0 1 0) (demo_world 0 0))
               (or_introl Ha)).
Defined.

Lemma hvm_buffered_io_send_frame_witness :
  @slot_num_ok xen_abi /\ @page_wf xen_abi (buf_page (demo_world 0 0)) /\
  @page_wf xen_abi
    (buf_page (snd (@hvm_buffered_io_send xen_abi unit vga_write4
                      (demo_world 0 0)))).
Proof.
  assert (Hn : @slot_num_ok xen_abi) by crunch.
  assert (Hw : @page_wf xen_abi (buf_page (demo_world 0 0))) by crunch.
  repeat (split; [assumption|]).
  exact (proj1 (@hvm_buffered_io_send_frame xen_abi unit vga_write4
                  (demo_world 0 0) Hn Hw)).
Defined.

(** ** More about completion *)

(** Like [quiet_step], for a predicate known only through hypotheses. *)
Ltac quiet_hyp :=
  first
    [ apply quiet_ret
    | apply quiet_get
    | apply quiet_emit; solve [reflexivity | auto]
    | apply quiet_extcall; solve [reflexivity | auto]
    | apply quiet_extcall_world; solve [reflexivity | auto]
    | apply quiet_modify; reflexivity
    | apply quiet_bind; [|intros ?]
    | match goal with
      | |- quiet _ (if ?c then _ else _) => destruct c
      end ].

Section CompletionExtras.

Context `{abi : ioreq_abi} {Env : Type} {ext : collaborators Env}.

(** [handle_mmio] makes only emulator calls and its one diagnostic. *)
Lemma handle_mmio_quiet (f : event -> bool) :
  f call_hvm_emulate_prepare = false -> f call_hvm_emulate_one = false ->
  (forall s, f (gdprintk s) = false) ->
  (forall a b, f (call_hvm_inject_exception a b) = false) ->
  f call_hvm_emulate_writeback = false ->
  quiet f handle_mmio.
Proof.
  intros H1 H2 H3 H4 H5. unfold handle_mmio. repeat quiet_hyp.
Qed.

(** The events of one [hvm_io_assist]: some that come from the check or
    from [handle_mmio], then the release. *)
Lemma hvm_io_assist_events (f : event -> bool) (w : world Env) :
  f call_hvm_emulate_prepare = false -> f call_hvm_emulate_one = false ->
  (forall s, f (gdprintk s) = false) ->
  (forall a b, f (call_hvm_inject_exception a b) = false) ->
  f call_hvm_emulate_writeback = false ->
  (ioreq.state (vio w) = STATE_IORESP_READY \/ f call_domain_crash = false) ->
  exists evs,
    trace (snd (hvm_io_assist w))
    = trace w ++ evs ++ [call_vcpu_end_shutdown_deferral] /\
    count_events f evs = O.
Proof.
  intros H1 H2 H3 H4 H5 H6.
  assert (Hbody : forall (body : M Env unit), quiet f body ->
            exists evs,
              trace (snd (bind body (fun _ =>
                            extcall call_vcpu_end_shutdown_deferral
                                    vcpu_end_shutdown_deferral) w))
              = trace w ++ evs ++ [call_vcpu_end_shutdown_deferral] /\
              count_events f evs = O).
  { intros body Hq. destruct (Hq w) as (evs & Ht & Hc).
    exists evs. split; [|exact Hc].
    unfold bind, extcall. destruct (body w) as [u w1]. simpl in Ht.
    destruct (vcpu_end_shutdown_deferral (env w1)). simpl.
    rewrite Ht, app_assoc. reflexivity. }
  pose proof (handle_mmio_quiet f H1 H2 H3 H4 H5) as Hm.
  unfold hvm_io_assist. unfold bind at 1, get at 1. apply Hbody.
  destruct (negb _) eqn:Hst.
  - destruct H6 as [H6 | H6].
    + apply negb_true_iff, Z.eqb_neq in Hst. contradiction.
    + repeat quiet_hyp.
  - repeat first [apply Hm | quiet_hyp].
Qed.

(** X7: a completed read.  With the slot in [STATE_IORESP_READY], an I/O
    in progress, read direction, immediate data and no MMIO emulation in
    flight, [hvm_io_assist] returns the slot to idle, clears the
    in-progress flag, stores the response data as the read result and
    sets the completed flag; the only call it makes is the release. *)
Theorem hvm_io_assist_read_completion (w : world Env) :
  ioreq.state (vio w) = STATE_IORESP_READY ->
  io_in_progress (hvm_vcpu w) <> 0 ->
  ioreq.dir (vio w) = IOREQ_READ -> ioreq.data_is_ptr (vio w) = 0 ->
  mmio_in_progress (hvm_vcpu w) = 0 ->
  let w' := snd (hvm_io_assist w) in
  vio w' = ioreq.set_state (bitfield 4 STATE_IOREQ_NONE) (vio w) /\
  hvm_vcpu w' = mk_hvm_vcpu 0 1 (u64 (ioreq.data (vio w))) 0 /\
  buf_page w' = buf_page w /\
  trace w' = trace w ++ [call_vcpu_end_shutdown_deferral].
Proof.
  intros Hst Hio Hdir Hptr Hmmio. cbv zeta.
  unfold hvm_io_assist, bind, get, modify, extcall, ret. simpl.
  rewrite Hst, Z.eqb_refl. simpl.
  unfold truthy. apply Z.eqb_neq in Hio. rewrite Hio. simpl.
  rewrite Hdir, Z.eqb_refl, Hptr, Hmmio. simpl.
  destruct (vcpu_end_shutdown_deferral (env w)). simpl. auto.
Qed.

(** X8: a completion that delivers no read result.  With the slot in
    [STATE_IORESP_READY], if no I/O is in progress, or the direction is
    not read, or the data is pointer-indirected, [hvm_io_assist] leaves
    the read result, the completed flag and the MMIO flag as they were,
    does not enter the emulator, and still idles the slot, clears the
    in-progress flag and releases the hold. *)
Theorem hvm_io_assist_no_read_result (w : world Env) :
  ioreq.state (vio w) = STATE_IORESP_READY ->
  (io_in_progress (hvm_vcpu w) = 0 \/ ioreq.dir (vio w) <> IOREQ_READ \/
   ioreq.data_is_ptr (vio w) <> 0) ->
  let w' := snd (hvm_io_assist w) in
  vio w' = ioreq.set_state (bitfield 4 STATE_IOREQ_NONE) (vio w) /\
  io_in_progress (hvm_vcpu w') = 0 /\
  io_completed (hvm_vcpu w') = io_completed (hvm_vcpu w) /\
  io_data (hvm_vcpu w') = io_data (hvm_vcpu w) /\
  mmio_in_progress (hvm_vcpu w') = mmio_in_progress (hvm_vcpu w) /\
  trace w' = trace w ++ [call_vcpu_end_shutdown_deferral].
Proof.
  intros Hst Hcase. cbv zeta.
  unfold hvm_io_assist, bind, get, modify, extcall, ret. simpl.
  rewrite Hst, Z.eqb_refl. simpl. unfold truthy.
  destruct (io_in_progress (hvm_vcpu w) =? 0) eqn:Hio; simpl.
  - apply Z.eqb_eq in Hio.
    destruct (vcpu_end_shutdown_deferral (env w)). simpl.
    repeat split; auto.
  - destruct Hcase as [H | Hcase];
      [apply Z.eqb_neq in Hio; contradiction|].
    assert (Hc : (ioreq.dir (vio w) =? IOREQ_READ)
                 && negb (negb (ioreq.data_is_ptr (vio w) =? 0)) = false).
    { destruct Hcase as [H | H]; apply Z.eqb_neq in H; rewrite H;
        [reflexivity | apply andb_false_r]. }
    rewrite Hc. simpl.
    destruct (vcpu_end_shutdown_deferral (env w)). simpl.
    repeat split; auto.
Qed.

(** X9: the two outcomes of [handle_mmio].  When the emulator reports
    [X86EMUL_UNHANDLEABLE] the result is 0 and nothing follows but the
    diagnostic: no exception is injected and nothing is written back.
    Otherwise the result is 1, the writeback is called once, and the
    MMIO-in-progress flag ends equal to the I/O-in-progress flag. *)
Theorem handle_mmio_outcomes (w : world Env) :
  let w0 := set_trace (trace w ++ [call_hvm_emulate_prepare]) w in
  let rc := fst (fst (hvm_emulate_one w0)) in
  (rc = X86EMUL_UNHANDLEABLE ->
   handle_mmio w
   = (0, set_trace
           (trace w ++ [call_hvm_emulate_prepare; call_hvm_emulate_one;
                        gdprintk "MMIO emulation failed @ %04x:%lx: %02x %02x %02x %02x %02x %02x"])
           (snd (hvm_emulate_one w0)))) /\
  (rc <> X86EMUL_UNHANDLEABLE ->
   fst (handle_mmio w) = 1 /\
   mmio_in_progress (hvm_vcpu (snd (handle_mmio w)))
   = io_in_progress (hvm_vcpu (snd (handle_mmio w))) /\
   exists evs,
     trace (snd (handle_mmio w))
     = trace w ++ [call_hvm_emulate_prepare; call_hvm_emulate_one] ++ evs
       ++ [call_hvm_emulate_writeback] /\
     count_events is_writeback evs = O /\
     count_events is_diagnostic evs = O).
Proof.
  cbv zeta. unfold handle_mmio, bind, emit, modify, extcall_world. simpl.
  destruct (hvm_emulate_one _) as [[rc ctxt] w1]. simpl. split.
  - intros ->. rewrite Z.eqb_refl. unfold ret. simpl.
    rewrite <- !app_assoc. reflexivity.
  - intros Hrc. apply Z.eqb_neq in Hrc. rewrite Hrc.
    destruct (rc =? X86EMUL_EXCEPTION); [destruct (truthy _)|];
      unfold extcall, ret; simpl;
      repeat match goal with
             | |- context [hvm_inject_exception ?a ?b ?c ?e] =>
                 destruct (hvm_inject_exception a b c e); simpl
             | |- context [hvm_emulate_writeback ?c ?x] =>
                 destruct (hvm_emulate_writeback c x); simpl
             end;
      (split; [reflexivity | split; [reflexivity|]]).
    + exists [call_hvm_inject_exception (exn_vector ctxt)
                                        (exn_error_code ctxt)].
      rewrite <- !app_assoc. simpl. auto.
    + exists []. rewrite <- !app_assoc. simpl. auto.
    + exists []. rewrite <- !app_assoc. simpl. auto.
Qed.

End CompletionExtras.

(** ** More about dispatch *)

Lemma count_events_weaken (f g : event -> bool) (l : list event) :
  (forall e, g e = true -> f e = true) ->
  count_events f l = O -> count_events g l = O.
Proof.
  intros Hfg. induction l as [|e l IH]; simpl; [reflexivity|].
  destruct (g e) eqn:Hg.
  - rewrite (Hfg e Hg). discriminate.
  - destruct (f e); [discriminate | exact IH].
Qed.

Section DispatchExtras.

Context `{abi : ioreq_abi} {Env : Type} {ext : collaborators Env}.

(** Completion run right after the slot was marked ready: no hand-off, no
    crash, no further intercept, and the release at the very end. *)
Lemma inline_completion_events (w1 : world Env) :
  0 <= STATE_IORESP_READY < 2 ^ 4 ->
  exists evs,
    trace (snd (bind mark_resp_ready (fun _ => hvm_io_assist) w1))
    = trace w1 ++ evs ++ [call_vcpu_end_shutdown_deferral] /\
    count_events is_not_inline evs = O.
Proof.
  intros Hr. unfold bind, mark_resp_ready, modify.
  match goal with |- context [hvm_io_assist ?x] => set (w2 := x) end.
  assert (Hst : ioreq.state (vio w2) = STATE_IORESP_READY)
    by (subst w2; simpl; apply Z.mod_small; exact Hr).
  destruct (hvm_io_assist_events is_not_inline w2) as (evs & Ht & Hc);
    try reflexivity; [left; exact Hst|].
  exists evs. split; [exact Ht | exact Hc].
Qed.

(** X10: a port access an intercept handler has handled is completed
    inline.  When [hvm_portio_intercept] returns nonzero (and the ready
    state fits its four-bit field), what [send_pio_req] does after the
    intercept contains no hand-off to the external consumer and no domain
    crash, and ends with the one release of the shutdown hold. *)
Theorem send_pio_req_handled_inline
    (port count size value dir df value_is_ptr : Z) (w : world Env) :
  let wp := pio_issued port count size value dir df value_is_ptr w in
  fst (hvm_portio_intercept wp) <> 0 ->
  0 <= STATE_IORESP_READY < 2 ^ 4 ->
  exists evs,
    trace (snd (send_pio_req port count size value dir df value_is_ptr w))
    = trace wp ++ call_hvm_portio_intercept :: evs
      ++ [call_vcpu_end_shutdown_deferral] /\
    count_events is_handoff evs = O /\
    count_events is_domain_crash evs = O /\
    count_events is_release evs = O.
Proof.
  intros wp Hr Hst. rewrite send_pio_req_unfold. cbv zeta. fold wp.
  unfold truthy. apply Z.eqb_neq in Hr. rewrite Hr. simpl negb. cbv iota.
  destruct (inline_completion_events
              (after_call call_hvm_portio_intercept hvm_portio_intercept wp)
              Hst) as (evs & Ht & Hc).
  exists evs. split.
  - rewrite Ht. unfold after_call. simpl. rewrite <- app_assoc. reflexivity.
  - repeat split; apply (count_events_weaken is_not_inline); try exact Hc;
      intros e He; unfold is_not_inline; rewrite He;
      rewrite ?orb_true_r; reflexivity.
Qed.

(** X11: the order of the two MMIO intercepts.  When [hvm_mmio_intercept]
    returns nonzero, [send_mmio_req] never calls the buffered intercept
    and never hands off: it completes inline.  When it returns 0, the
    buffered intercept is called next, once, and not again. *)
Theorem send_mmio_req_intercept_order
    (type gpa count size value dir df value_is_ptr : Z) (w : world Env) :
  let wm := mmio_issued type gpa count size value dir df value_is_ptr w in
  0 <= STATE_IORESP_READY < 2 ^ 4 ->
  (fst (hvm_mmio_intercept wm) <> 0 ->
   exists evs,
     trace (snd (send_mmio_req type gpa count size value dir df
                               value_is_ptr w))
     = trace wm ++ call_hvm_mmio_intercept :: evs
       ++ [call_vcpu_end_shutdown_deferral] /\
     count_events is_buffered_intercept evs = O /\
     count_events is_handoff evs = O /\
     count_events is_domain_crash evs = O) /\
  (fst (hvm_mmio_intercept wm) = 0 ->
   exists evs,
     trace (snd (send_mmio_req type gpa count size value dir df
                               value_is_ptr w))
     = trace wm ++ call_hvm_mmio_intercept
       :: call_hvm_buffered_io_intercept :: evs /\
     count_events is_buffered_intercept evs = O).
Proof.
  intros wm Hst. rewrite send_mmio_req_unfold. cbv zeta. fold wm. split.
  - intros Hr. unfold truthy at 1. apply Z.eqb_neq in Hr. rewrite Hr.
    simpl negb. cbv iota.
    destruct (inline_completion_events
                (after_call call_hvm_mmio_intercept hvm_mmio_intercept wm)
                Hst) as (evs & Ht & Hc).
    exists evs. split.
    + rewrite Ht. unfold after_call. simpl. rewrite <- app_assoc.
      reflexivity.
    + repeat split; apply (count_events_weaken is_not_inline); try exact Hc;
        intros e He; unfold is_not_inline; rewrite He;
        rewrite ?orb_true_r; reflexivity.
  - intros Hr. rewrite Hr. change (truthy 0) with false. cbv iota.
    set (w1 := after_call call_hvm_mmio_intercept hvm_mmio_intercept wm).
    set (w2 := after_call call_hvm_buffered_io_intercept
                          hvm_buffered_io_intercept w1).
    assert (Ht2 : trace w2
                  = trace wm ++ [call_hvm_mmio_intercept;
                                 call_hvm_buffered_io_intercept])
      by (subst w2 w1; unfold after_call; simpl;
          rewrite <- app_assoc; reflexivity).
    destruct (truthy (fst (hvm_buffered_io_intercept w1))); cbv iota.
    + destruct (inline_completion_events w2 Hst) as (evs & Ht & Hc).
      exists (evs ++ [call_vcpu_end_shutdown_deferral]). split.
      * rewrite Ht, Ht2, <- app_assoc. reflexivity.
      * rewrite count_events_app. simpl.
        rewrite (count_events_weaken is_not_inline is_buffered_intercept
                   evs); [reflexivity| |exact Hc].
        intros e He. unfold is_not_inline. rewrite He. apply orb_true_r.
    + unfold extcall_world. destruct (hvm_send_assist_req w2) as [u w3].
      exists [call_hvm_send_assist_req]. split; [|reflexivity].
      cbn [snd]. unfold set_trace. cbn [trace].
      rewrite Ht2, <- app_assoc. reflexivity.
Qed.

End DispatchExtras.

(** ** Time offset and invalidation *)

Section TimeOffsetExtras.

Context `{abi : ioreq_abi} {Env : Type}.

(** X6: a time offset can be read back from the ring.  When two slots
    are free and the pointer increment does not wrap,
    [send_timeoffset_req] leaves at the old write pointer and at the next
    position two slots of width code 3, of the time-offset type and with
    address 0, whose data words put together are the offset; the write
    pointer has moved by 2. *)
Theorem send_timeoffset_req_decodes (timeoff : Z) (w : world Env) :
  slot_num_ok -> page_wf (buf_page w) ->
  0 < timeoff < 2 ^ 64 ->
  2 <= free_slots (buf_page w) ->
  write_pointer (buf_page w) + 1 < 2 ^ 32 ->
  let pg := buf_page w in
  let pg' := buf_page (snd (send_timeoffset_req timeoff w)) in
  exists lo hi,
    slot_at pg' (write_pointer pg mod IOREQ_BUFFER_SLOT_NUM) = Some lo /\
    slot_at pg' ((write_pointer pg + 1) mod IOREQ_BUFFER_SLOT_NUM)
    = Some hi /\
    qword_of_slots lo hi = timeoff /\
    buf_ioreq.type lo = bitfield 8 IOREQ_TYPE_TIMEOFFSET /\
    buf_ioreq.type hi = bitfield 8 IOREQ_TYPE_TIMEOFFSET /\
    buf_ioreq.addr lo = 0 /\ buf_ioreq.addr hi = 0 /\
    slot_width lo = 8 /\ slot_width hi = 8 /\
    write_pointer pg' = u32 (write_pointer pg + 2).
Proof.
  intros Hn (Hrp & Hwp & Hlen) Ht Hfree Hnw. cbv zeta.
  assert (Hpos : 0 < IOREQ_BUFFER_SLOT_NUM) by (unfold slot_num_ok in Hn; lia).
  destruct (timeoffset_req_eligible timeoff) as [He Hreq].
  unfold send_timeoffset_req.
  assert (Hz : (timeoff =? 0) = false) by (apply Z.eqb_neq; lia).
  rewrite Hz. cbv zeta. unfold bind.
  rewrite (hvm_buffered_io_send_eligible (timeoffset_req timeoff) w Hn He).
  rewrite Hreq. destruct (decide _) as [_ | Hc]; [|contradiction].
  simpl.
  assert (Hn2 : 2 <= IOREQ_BUFFER_SLOT_NUM).
  { unfold free_slots in Hfree.
    pose proof (u32_range (write_pointer (buf_page w)
                           - read_pointer (buf_page w))).
    unfold used_slots in Hfree. lia. }
  pose proof (successive_slots_distinct IOREQ_BUFFER_SLOT_NUM
                (write_pointer (buf_page w)) Hn2 ltac:(lia) Hnw) as Hdist.
  rewrite (u32_small (write_pointer (buf_page w) + 1)) in * by lia.
  unfold slot_at. simpl.
  eexists. eexists. split; [|split].
  - rewrite list_lookup_insert_ne
      by (intros Heq; apply Hdist; symmetry;
          eapply slot_index_inj; eassumption).
    apply list_lookup_insert_eq. apply slot_index_lt; assumption.
  - apply list_lookup_insert_eq. rewrite length_insert.
    apply slot_index_lt; assumption.
  - simpl. split;
      [|repeat split; unfold bitfield; apply Z.mod_mod; lia].
    unfold qword_of_slots. simpl. unfold u32.
    rewrite Z.shiftr_div_pow2 by lia.
    assert (Hu : u64 timeoff = timeoff) by (apply Z.mod_small; lia).
    rewrite Hu. apply qword_split. lia.
Qed.

End TimeOffsetExtras.

Section InvalidateExtras.

Context `{abi : ioreq_abi} {Env : Type} {ext : collaborators Env}.
Variable get_ioreq_is_null : Env -> bool.
Variable IOREQ_TYPE_INVALIDATE : Z.


End InvalidateExtras.

(** ** More about passthrough *)

Lemma u64_small (z : Z) : 0 <= z < 2 ^ 64 -> u64 z = z.
Proof. intros H. unfold u64. apply Z.mod_small. exact H. Qed.

Section PassthroughExtras.

Context `{abi : ioreq_abi} {Env : Type} {ext : collaborators Env}.

(** The scan finds nothing exactly when no entry's range holds the port. *)
Lemma g2m_lookup_none (gp : Z) (l : list g2m_ioport_t) :
  (forall g, g ∈ l ->
     ~ (g2m_ioport.gport g <= gp
        < u32 (g2m_ioport.gport g + g2m_ioport.np g))) ->
  g2m_lookup gp l = None.
Proof.
  intros Hno. destruct (g2m_lookup gp l) as [g|] eqn:Hg; [|reflexivity].
  destruct (g2m_lookup_sound gp l g Hg) as [Hin Hr].
  exfalso. exact (Hno g Hin Hr).
Qed.

(** X13: a port no mapping covers.  When no entry of the list has the
    guest port in its range, [dpci_ioport_intercept] returns 0 and has
    done nothing at all: no diagnostic, no permission-dependent effect, the
    record and the state are as they were. *)
Theorem dpci_ioport_intercept_no_mapping (p : ioreq_t) (w : world Env) :
  (forall g, g ∈ g2m_ioport_list (env w) ->
     ~ (g2m_ioport.gport g <= u32 (ioreq.addr p)
        < u32 (g2m_ioport.gport g + g2m_ioport.np g))) ->
  dpci_ioport_intercept p w = ((0, p), w).
Proof.
  intros Hno. unfold dpci_ioport_intercept, bind, get.
  rewrite (g2m_lookup_none _ _ Hno). reflexivity.
Qed.

(** X14: overlapping mappings.  The scan settles on the first entry of
    the list whose range holds the port, whatever follows it. *)
Theorem g2m_lookup_first_match (gp : Z) (l1 l2 : list g2m_ioport_t)
    (g : g2m_ioport_t) :
  (forall g', g' ∈ l1 ->
     ~ (g2m_ioport.gport g' <= gp
        < u32 (g2m_ioport.gport g' + g2m_ioport.np g'))) ->
  g2m_ioport.gport g <= gp < u32 (g2m_ioport.gport g + g2m_ioport.np g) ->
  g2m_lookup gp (l1 ++ g :: l2) = Some g.
Proof.
  intros Hno Hg. induction l1 as [|g1 l1 IH]; simpl.
  - assert (Hm : (gp >=? g2m_ioport.gport g)
                 && (gp <? u32 (g2m_ioport.gport g + g2m_ioport.np g))
                 = true).
    { apply andb_true_iff. rewrite Z.geb_leb.
      split; [apply Z.leb_le | apply Z.ltb_lt]; lia. }
    rewrite Hm. reflexivity.
  - destruct (_ && _) eqn:Hm.
    + exfalso. apply (Hno g1); [apply list_elem_of_here|].
      apply andb_true_iff in Hm as [H1 H2].
      rewrite Z.geb_leb in H1. apply Z.leb_le in H1. apply Z.ltb_lt in H2.
      lia.
    + apply IH. intros g' Hin. apply Hno. apply list_elem_of_further, Hin.
Qed.

(** X15: the translation keeps the offset.  For an entry whose guest and
    host ranges do not run past the end of the 32-bit port space, a guest
    port in the guest range is sent to the host port at the same offset
    in the host range, hence inside it.  An entry whose guest range does
    run past the end matches no port at all. *)
Theorem host_port_in_host_range (gp : Z) (g : g2m_ioport_t) :
  0 <= g2m_ioport.gport g < 2 ^ 32 ->
  0 <= g2m_ioport.mport g -> 0 <= g2m_ioport.np g < 2 ^ 32 ->
  g2m_ioport.gport g <= gp < u32 (g2m_ioport.gport g + g2m_ioport.np g) ->
  g2m_ioport.gport g + g2m_ioport.np g < 2 ^ 32 /\
  (g2m_ioport.mport g + g2m_ioport.np g <= 2 ^ 32 ->
   host_port gp g - g2m_ioport.mport g = gp - g2m_ioport.gport g /\
   g2m_ioport.mport g <= host_port gp g
     < g2m_ioport.mport g + g2m_ioport.np g).
Proof.
  intros Hs Hm Hnp Hr.
  assert (Hnowrap : g2m_ioport.gport g + g2m_ioport.np g < 2 ^ 32).
  { destruct (Z_lt_dec (g2m_ioport.gport g + g2m_ioport.np g) (2 ^ 32))
      as [H | H]; [exact H|].
    exfalso. unfold u32 in Hr.
    replace (g2m_ioport.gport g + g2m_ioport.np g)
      with (g2m_ioport.gport g + g2m_ioport.np g - 2 ^ 32 + 1 * 2 ^ 32)
      in Hr by lia.
    rewrite Z.mod_add in Hr by lia.
    rewrite Z.mod_small in Hr by lia. lia. }
  split; [exact Hnowrap|]. intros Hhost.
  rewrite u32_small in Hr by lia.
  unfold host_port. rewrite u32_small by lia. lia.
Qed.

End PassthroughExtras.

(** ** The passthrough workers round by round *)

Section WorkerExtras.

Context `{abi : ioreq_abi} {Env : Type} {ext : collaborators Env}.

(** One round of the write loop with immediate data appends the round's
    event and goes on with the next counter value. *)
Lemma dpci_ioport_write_round (fuel : nat) (mport len i : Z) (p : ioreq_t)
    (w : world Env) :
  (i <? len) = true -> truthy (ioreq.data_is_ptr p) = false ->
  exists w1,
    trace w1
    = trace w ++ [write_round_event (ioreq.size p) (ioreq.data p) mport] /\
    dpci_ioport_write_loop (S fuel) mport len i p w
    = dpci_ioport_write_loop fuel mport len (u64 (i + ioreq.size p)) p w1.
Proof.
  intros Hlt Hptr. simpl. rewrite Hlt, Hptr.
  unfold bind at 1. unfold ret at 1. unfold write_round_event.
  unfold bind at 1.
  destruct (ioreq.size p =? 1);
    [|destruct (ioreq.size p =? 2); [|destruct (ioreq.size p =? 4)]];
    unfold extcall, emit, modify;
    try match goal with |- context [?f ?v mport (env w)] =>
          destruct (f v mport (env w)) as [u e] end;
    eexists; (split; [|reflexivity]); reflexivity.
Qed.

(** The write loop with immediate data, from round [k] on. *)
Lemma dpci_ioport_write_loop_immediate (fuel : nat) (mport k : Z)
    (p : ioreq_t) (w : world Env) :
  truthy (ioreq.data_is_ptr p) = false ->
  0 < ioreq.size p -> ioreq.count p * ioreq.size p < 2 ^ 64 ->
  0 <= k <= ioreq.count p ->
  fuel = S (Z.to_nat (ioreq.count p - k)) ->
  trace (snd (dpci_ioport_write_loop fuel mport
                (ioreq.count p * ioreq.size p) (k * ioreq.size p) p w))
  = trace w ++ replicate (Z.to_nat (ioreq.count p - k))
                 (write_round_event (ioreq.size p) (ioreq.data p) mport).
Proof.
  intros Hptr Hs Hlen. revert k w.
  induction fuel as [|fuel IH]; intros k w Hk Hf; [discriminate|].
  destruct (Z.eq_dec k (ioreq.count p)) as [-> | Hne].
  - simpl. rewrite Z.ltb_irrefl, Z.sub_diag. simpl.
    rewrite app_nil_r. reflexivity.
  - assert (Hlt : (k * ioreq.size p <? ioreq.count p * ioreq.size p) = true)
      by (apply Z.ltb_lt; nia).
    destruct (dpci_ioport_write_round fuel mport _ _ p w Hlt Hptr)
      as (w1 & Ht1 & ->).
    assert (Hi : u64 (k * ioreq.size p + ioreq.size p)
                 = (k + 1) * ioreq.size p)
      by (rewrite u64_small by nia; ring).
    rewrite Hi, (IH (k + 1) w1) by lia.
    rewrite Ht1, <- app_assoc. f_equal.
    replace (Z.to_nat (ioreq.count p - k))
      with (S (Z.to_nat (ioreq.count p - (k + 1)))) by lia.
    reflexivity.
Qed.

(** X18: a write with immediate data.  For a positive width and a count
    whose product with it stays below 2^64, [dpci_ioport_write] makes
    exactly count rounds, nothing else: for widths 1, 2 and 4 each round
    is the port instruction of that width with the record's data
    truncated to it, at the host port; for any other width each round is
    only the diagnostic, and the loop still runs count times. *)
Theorem dpci_ioport_write_immediate (mport : Z) (p : ioreq_t)
    (w : world Env) :
  ioreq.data_is_ptr p = 0 ->
  0 < ioreq.size p -> 0 <= ioreq.count p ->
  ioreq.count p * ioreq.size p < 2 ^ 64 ->
  trace (snd (dpci_ioport_write mport p w))
  = trace w ++ replicate (Z.to_nat (ioreq.count p))
                 (write_round_event (ioreq.size p) (ioreq.data p) mport).
Proof.
  intros Hptr Hs Hc Hlen.
  assert (Hp : truthy (ioreq.data_is_ptr p) = false)
    by (rewrite Hptr; reflexivity).
  unfold dpci_ioport_write. cbv zeta. unfold bind.
  rewrite (u64_small (ioreq.count p * ioreq.size p)) by nia.
  pose proof (dpci_ioport_write_loop_immediate (loop_fuel p) mport 0 p w
                Hp Hs Hlen ltac:(lia)) as H.
  rewrite Z.sub_0_r in H. simpl (0 * _) in H.
  destruct (dpci_ioport_write_loop _ _ _ _ _ _) as [b w1].
  simpl in *. apply H. unfold loop_fuel. reflexivity.
Qed.

(** The write loop comes to its end within its fuel. *)
Lemma dpci_ioport_write_loop_ends (fuel : nat) (mport k : Z) (p : ioreq_t)
    (w : world Env) :
  0 <= k <= ioreq.count p ->
  fuel = S (Z.to_nat (ioreq.count p - k)) ->
  fst (dpci_ioport_write_loop fuel mport
         (u64 (ioreq.count p * ioreq.size p))
         (u64 (k * ioreq.size p)) p w) = true.
Proof.
  revert k w. induction fuel as [|fuel IH]; intros k w Hk Hf;
    [discriminate|].
  simpl. destruct (_ <? _) eqn:Hlt; [|reflexivity].
  assert (Hk1 : k < ioreq.count p).
  { destruct (Z.eq_dec k (ioreq.count p)) as [-> | Hne]; [|lia].
    rewrite Z.ltb_irrefl in Hlt. discriminate. }
  assert (Hnext : forall w',
            fst (dpci_ioport_write_loop fuel mport
                   (u64 (ioreq.count p * ioreq.size p))
                   (u64 (u64 (k * ioreq.size p) + ioreq.size p)) p w')
            = true).
  { intros w'. rewrite u64_step. apply (IH (k + 1) w'); lia. }
  unfold bind at 1.
  destruct (truthy (ioreq.data_is_ptr p)).
  - unfold bind at 1, extcall at 1.
    destruct (hvm_copy_from_guest_phys _ _ _) as [[rc v] e]. simpl.
    destruct (truthy rc); [reflexivity|].
    unfold ret at 1. unfold bind at 1.
    destruct (ioreq.size p =? 1);
      [|destruct (ioreq.size p =? 2); [|destruct (ioreq.size p =? 4)]];
      unfold extcall, emit, modify; simpl;
      try match goal with |- context [?f ?x mport e] =>
            destruct (f x mport e) as [u e'] end;
      simpl; apply Hnext.
  - unfold ret at 1. unfold bind at 1.
    destruct (ioreq.size p =? 1);
      [|destruct (ioreq.size p =? 2); [|destruct (ioreq.size p =? 4)]];
      unfold extcall, emit, modify; simpl;
      try match goal with |- context [?f ?x mport (env w)] =>
            destruct (f x mport (env w)) as [u e'] end;
      simpl; apply Hnext.
Qed.

(** X20: both workers run their loop to its end.  Whatever the width,
    the collaborators and the data, and even when the byte length
    [count * size] wraps around in 64 bits, the loop test fails after at
    most [count] rounds, so the workers return. *)
Theorem dpci_ioport_loops_end (mport : Z) (p : ioreq_t) (w : world Env) :
  0 <= ioreq.count p ->
  snd (fst (dpci_ioport_read_loop (loop_fuel p) mport
              (u64 (ioreq.count p * ioreq.size p)) 0 p w)) = true /\
  fst (dpci_ioport_write_loop (loop_fuel p) mport
         (u64 (ioreq.count p * ioreq.size p)) 0 p w) = true.
Proof.
  intros Hc. split.
  - apply dpci_ioport_read_ends, Hc.
  - apply (dpci_ioport_write_loop_ends (loop_fuel p) mport 0 p w); [lia|].
    unfold loop_fuel. f_equal. f_equal. lia.
Qed.

End WorkerExtras.

Section ReadWorkerExtras.

Context `{abi : ioreq_abi} {Env : Type} {ext : collaborators Env}.

Lemma bitfield_range (n z : Z) : 0 <= n -> 0 <= bitfield n z < 2 ^ n.
Proof. intros Hn. unfold bitfield. apply Z.mod_pos_bound. lia. Qed.

(** One round of the read loop with immediate data: one port read, whose
    value, truncated to the width, becomes the record's data. *)
Lemma dpci_ioport_read_round (fuel : nat) (mport len i : Z) (p : ioreq_t)
    (w : world Env) :
  (i <? len) = true -> port_width (ioreq.size p) ->
  truthy (ioreq.data_is_ptr p) = false ->
  exists z w1,
    0 <= z < 2 ^ (8 * ioreq.size p) /\
    trace w1 = trace w ++ [in_event (ioreq.size p) mport] /\
    dpci_ioport_read_loop (S fuel) mport len i p w
    = dpci_ioport_read_loop fuel mport len (u64 (i + ioreq.size p))
        (ioreq.set_data z p) w1.
Proof.
  intros Hlt Hs Hptr. simpl. rewrite Hlt. unfold bind at 1.
  unfold in_event.
  destruct Hs as [Hs | [Hs | Hs]]; rewrite Hs; simpl;
    unfold bind at 1, extcall at 1;
    match goal with |- context [?f mport (env w)] =>
      destruct (f mport (env w)) as [v e] end;
    unfold ret at 1; simpl; rewrite Hptr;
    eexists; eexists; (split; [|split; [|rewrite ?Hs; reflexivity]]);
    try reflexivity; apply bitfield_range; lia.
Qed.

(** The read loop with immediate data, from round [k] on. *)
Lemma dpci_ioport_read_loop_immediate (fuel : nat) (mport c s k : Z)
    (p : ioreq_t) (w : world Env) :
  ioreq.count p = c -> ioreq.size p = s -> port_width s ->
  truthy (ioreq.data_is_ptr p) = false ->
  c * s < 2 ^ 64 -> 0 <= k <= c ->
  fuel = S (Z.to_nat (c - k)) ->
  let r := dpci_ioport_read_loop fuel mport (c * s) (k * s) p w in
  trace (snd r)
  = trace w ++ replicate (Z.to_nat (c - k)) (in_event s mport) /\
  ioreq.set_data (ioreq.data (fst (fst r))) p = fst (fst r) /\
  (k < c -> 0 <= ioreq.data (fst (fst r)) < 2 ^ (8 * s)) /\
  (k = c -> fst (fst r) = p).
Proof.
  intros Hc Hs Hw Hptr Hlen. revert k p w Hc Hs Hptr. cbv zeta.
  assert (Hs0 : 0 < s) by (destruct Hw as [-> | [-> | ->]]; lia).
  induction fuel as [|fuel IH]; intros k p w Hc Hs Hptr Hk Hf;
    [discriminate|].
  destruct (Z.eq_dec k c) as [-> | Hne].
  - simpl. rewrite Z.ltb_irrefl, Z.sub_diag. simpl.
    rewrite app_nil_r. repeat split; try lia. destruct p; reflexivity.
  - assert (Hlt : (k * s <? c * s) = true) by (apply Z.ltb_lt; nia).
    assert (Hwp : port_width (ioreq.size p)) by (rewrite Hs; exact Hw).
    destruct (dpci_ioport_read_round fuel mport _ _ p w Hlt Hwp Hptr)
      as (z & w1 & Hz & Ht1 & ->).
    rewrite Hs in *.
    assert (Hi : u64 (k * s + s) = (k + 1) * s)
      by (rewrite u64_small by nia; ring).
    rewrite Hi.
    destruct (IH (k + 1) (ioreq.set_data z p) w1 Hc Hs Hptr ltac:(lia)
                 ltac:(lia)) as (Ht & Hp & Hd & He).
    split; [|split; [|split]].
    + rewrite Ht, Ht1, <- app_assoc. f_equal.
      replace (Z.to_nat (c - k)) with (S (Z.to_nat (c - (k + 1)))) by lia.
      reflexivity.
    + rewrite <- Hp at 2. reflexivity.
    + intros _. destruct (Z.eq_dec (k + 1) c) as [Heq | Hneq].
      * rewrite (He Heq). simpl. exact Hz.
      * apply Hd. lia.
    + intros Heq. contradiction.
Qed.

(** X17: a read with immediate data.  For width 1, 2 or 4 and a count
    whose product with it stays below 2^64, [dpci_ioport_read] makes
    exactly count port reads of that width at the host port and nothing
    else; it changes no field of the record but the data, which ends as
    a value of the width when the count is positive and is untouched
    when it is 0. *)
Theorem dpci_ioport_read_immediate (mport : Z) (p : ioreq_t)
    (w : world Env) :
  ioreq.data_is_ptr p = 0 -> port_width (ioreq.size p) ->
  0 <= ioreq.count p -> ioreq.count p * ioreq.size p < 2 ^ 64 ->
  let r := dpci_ioport_read mport p w in
  trace (snd r)
  = trace w ++ replicate (Z.to_nat (ioreq.count p))
                 (in_event (ioreq.size p) mport) /\
  ioreq.set_data (ioreq.data (fst r)) p = fst r /\
  (0 < ioreq.count p ->
   0 <= ioreq.data (fst r) < 2 ^ (8 * ioreq.size p)) /\
  (ioreq.count p = 0 -> fst r = p).
Proof.
  intros Hptr Hw Hc Hlen. cbv zeta.
  assert (Hp : truthy (ioreq.data_is_ptr p) = false)
    by (rewrite Hptr; reflexivity).
  assert (Hs0 : 0 < ioreq.size p)
    by (destruct Hw as [-> | [-> | ->]]; lia).
  unfold dpci_ioport_read. cbv zeta. unfold bind, ret.
  rewrite (u64_small (ioreq.count p * ioreq.size p)) by nia.
  pose proof (dpci_ioport_read_loop_immediate (loop_fuel p) mport
                (ioreq.count p) (ioreq.size p) 0 p w eq_refl eq_refl Hw Hp
                Hlen ltac:(lia)) as H.
  cbv zeta in H. rewrite Z.sub_0_r in H. simpl (0 * _) in H.
  destruct (dpci_ioport_read_loop _ _ _ _ _ _) as [[p' b] w1].
  simpl in *. destruct (H eq_refl) as (Ht & Hd & Hr & He).
  repeat split; try assumption; try apply Hr; try lia.
  intros H0. apply He. lia.
Qed.

(** With a width the workers have no port instruction for, the read
    loop stops in its first round and the record is as it was. *)
Lemma dpci_ioport_read_loop_unsupported (fuel : nat) (mport len i : Z)
    (p : ioreq_t) (w : world Env) :
  ~ port_width (ioreq.size p) ->
  fst (fst (dpci_ioport_read_loop fuel mport len i p w)) = p /\
  exists evs,
    trace (snd (dpci_ioport_read_loop fuel mport len i p w))
    = trace w ++ evs /\
    count_events is_host_port_access evs = O.
Proof.
  intros Hw.
  assert (H1 : (ioreq.size p =? 1) = false)
    by (apply Z.eqb_neq; intros H; apply Hw; left; exact H).
  assert (H2 : (ioreq.size p =? 2) = false)
    by (apply Z.eqb_neq; intros H; apply Hw; right; left; exact H).
  assert (H4 : (ioreq.size p =? 4) = false)
    by (apply Z.eqb_neq; intros H; apply Hw; right; right; exact H).
  destruct fuel as [|fuel]; simpl.
  - split; [reflexivity|]. exists []. rewrite app_nil_r. auto.
  - destruct (i <? len).
    + rewrite H1, H2, H4. unfold bind, emit, modify, ret. simpl.
      split; [reflexivity|]. eexists. split; reflexivity.
    + split; [reflexivity|]. exists []. rewrite app_nil_r. auto.
Qed.

(** With such a width the write loop makes no port instruction either. *)
Lemma dpci_ioport_write_loop_unsupported (fuel : nat) (mport len i : Z)
    (p : ioreq_t) :
  ~ port_width (ioreq.size p) ->
  quiet is_host_port_access (dpci_ioport_write_loop fuel mport len i p).
Proof.
  intros Hw.
  assert (H1 : (ioreq.size p =? 1) = false)
    by (apply Z.eqb_neq; intros H; apply Hw; left; exact H).
  assert (H2 : (ioreq.size p =? 2) = false)
    by (apply Z.eqb_neq; intros H; apply Hw; right; left; exact H).
  assert (H4 : (ioreq.size p =? 4) = false)
    by (apply Z.eqb_neq; intros H; apply Hw; right; right; exact H).
  revert i. induction fuel as [|fuel IH]; intros i; simpl.
  - apply quiet_ret.
  - destruct (i <? len); [|apply quiet_ret].
    apply quiet_bind; [repeat quiet_step|].
    intros [z|]; [|apply quiet_ret].
    rewrite H1, H2, H4.
    apply quiet_bind; [quiet_step|]. intros _. apply IH.
Qed.

(** X16: an access of a width without port instruction is reported
    handled.  When the scan finds an entry and the permission check
    passes but the width is not 1, 2 or 4 (an 8-byte access, say),
    [dpci_ioport_intercept] returns 1 although no port instruction is
    made and the record, its data included, is as it was. *)
Theorem dpci_ioport_intercept_unsupported_width
    (p : ioreq_t) (w : world Env) (g : g2m_ioport_t) :
  let gp := u32 (ioreq.addr p) in
  let host := u32 ((gp - g2m_ioport.gport g) + g2m_ioport.mport g) in
  g2m_lookup gp (g2m_ioport_list (env w)) = Some g ->
  ioports_access_permitted (env w) host (u64 (host + ioreq.size p - 1))
  = true ->
  ~ port_width (ioreq.size p) ->
  let r := dpci_ioport_intercept p w in
  fst r = (1, p) /\
  exists evs,
    trace (snd r) = trace w ++ evs /\
    count_events is_host_port_access evs = O.
Proof.
  intros gp host Hg Hperm Hw. cbv zeta.
  assert (Hrun : dpci_ioport_intercept p w
                 = bind (if ioreq.dir p =? IOREQ_READ
                         then dpci_ioport_read host p
                         else if ioreq.dir p =? IOREQ_WRITE
                              then bind (dpci_ioport_write host p)
                                        (fun _ => ret p)
                              else bind (emit (gdprintk
                                          "Error: couldn't handle p->dir = %d"))
                                        (fun _ => ret p))
                        (fun p' => ret (1, p')) w).
  { unfold dpci_ioport_intercept. unfold bind at 1, get at 1. fold gp.
    rewrite Hg. unfold host_port. fold host. rewrite Hperm. reflexivity. }
  rewrite Hrun. clear Hrun.
  destruct (ioreq.dir p =? IOREQ_READ);
    [|destruct (ioreq.dir p =? IOREQ_WRITE)].
  - unfold dpci_ioport_read. cbv zeta. unfold bind, ret.
    match goal with |- context [dpci_ioport_read_loop ?f ?m ?l ?i p w] =>
      destruct (dpci_ioport_read_loop_unsupported f m l i p w Hw)
        as (Hp & evs & Ht & Hc);
      destruct (dpci_ioport_read_loop f m l i p w) as [[p' b] w1]
    end.
    simpl in *. subst p'. split; [reflexivity|]. exists evs. auto.
  - unfold dpci_ioport_write. cbv zeta. unfold bind, ret.
    match goal with |- context [dpci_ioport_write_loop ?f ?m ?l ?i p w] =>
      destruct (dpci_ioport_write_loop_unsupported f m l i p Hw w)
        as (evs & Ht & Hc);
      destruct (dpci_ioport_write_loop f m l i p w) as [b w1]
    end.
    simpl in *. split; [reflexivity|]. exists evs. auto.
  - unfold bind, emit, modify, ret. simpl.
    split; [reflexivity|]. eexists. split; reflexivity.
Qed.

(** X19: a guest copy that fails in the first round.  For a
    pointer-indirected write with a nonzero byte length, if the copy from
    guest memory fails at once, [dpci_ioport_write] makes that one copy
    attempt, prints, and stops: no port is written, whatever the count. *)
Theorem dpci_ioport_write_copy_failure (mport : Z) (p : ioreq_t)
    (w : world Env) :
  ioreq.data_is_ptr p <> 0 ->
  0 < u64 (ioreq.count p * ioreq.size p) ->
  fst (fst (hvm_copy_from_guest_phys (u64 (ioreq.data p + 0))
              (int32 (ioreq.size p)) (env w))) <> 0 ->
  trace (snd (dpci_ioport_write mport p w))
  = trace w ++ [call_hvm_copy_from_guest_phys (u64 (ioreq.data p + 0))
                  (int32 (ioreq.size p));
                gdprintk "Error: couldn't copy from hvm phys"].
Proof.
  intros Hptr Hlen Hrc.
  unfold dpci_ioport_write, loop_fuel. cbv zeta. simpl.
  apply Z.ltb_lt in Hlen. rewrite Hlen.
  unfold truthy. apply Z.eqb_neq in Hptr. rewrite Hptr. simpl.
  unfold bind, extcall, emit, modify, ret.
  destruct (hvm_copy_from_guest_phys _ _ _) as [[rc v] e]. simpl in *.
  apply Z.eqb_neq in Hrc. rewrite Hrc. simpl.
  rewrite <- app_assoc. reflexivity.
Qed.

End ReadWorkerExtras.

(** ** The properties above at concrete inputs *)

Lemma send_timeoffset_req_decodes_witness :
  @slot_num_ok xen_abi /\ @page_wf xen_abi (buf_page (demo_world 0 0)) /\
  0 < 3600 < 2 ^ 64 /\
  2 <= @free_slots xen_abi (buf_page (demo_world 0 0)) /\
  write_pointer (buf_page (demo_world 0 0)) + 1 < 2 ^ 32 /\
  exists lo hi,
    slot_at (buf_page (snd (@send_timeoffset_req xen_abi unit 3600
                              (demo_world 0 0))))
            (write_pointer (buf_page (demo_world 0 0))
             mod @IOREQ_BUFFER_SLOT_NUM xen_abi) = Some lo /\
    slot_at (buf_page (snd (@send_timeoffset_req xen_abi unit 3600
                              (demo_world 0 0))))
            ((write_pointer (buf_page (demo_world 0 0)) + 1)
             mod @IOREQ_BUFFER_SLOT_NUM xen_abi) = Some hi /\
    qword_of_slots lo hi = 3600.
Proof.
  assert (Hn : @slot_num_ok xen_abi) by crunch.
  assert (Hw : @page_wf xen_abi (buf_page (demo_world 0 0))) by crunch.
  assert (Ht : 0 < 3600 < 2 ^ 64) by lia.
  assert (Hf : 2 <= @free_slots xen_abi (buf_page (demo_world 0 0)))
    by crunch.
  assert (Hp : write_pointer (buf_page (demo_world 0 0)) + 1 < 2 ^ 32)
    by (simpl; lia).
  repeat (split; [assumption|]).
  destruct (@send_timeoffset_req_decodes xen_abi unit 3600 (demo_world 0 0)
              Hn Hw Ht Hf Hp) as (lo & hi & H0 & H1 & Hq & _).
  exists lo, hi. auto.
Defined.

Lemma hvm_io_assist_read_completion_witness :
  ioreq.state (vio (response_world 1)) = @STATE_IORESP_READY xen_abi /\
  io_in_progress (hvm_vcpu (response_world 1)) <> 0 /\
  ioreq.dir (vio (response_world 1)) = @IOREQ_READ xen_abi /\
  ioreq.data_is_ptr (vio (response_world 1)) = 0 /\
  mmio_in_progress (hvm_vcpu (response_world 1)) = 0 /\
  hvm_vcpu (snd (@hvm_io_assist xen_abi unit (demo_collaborators true 0 0)
                   (response_world 1)))
  = mk_hvm_vcpu 0 1 (u64 (ioreq.data (vio (response_world 1)))) 0.
Proof.
  assert (H1 : ioreq.state (vio (response_world 1))
               = @STATE_IORESP_READY xen_abi) by reflexivity.
  assert (H2 : io_in_progress (hvm_vcpu (response_world 1)) <> 0)
    by (simpl; lia).
  assert (H3 : ioreq.dir (vio (response_world 1)) = @IOREQ_READ xen_abi)
    by reflexivity.
  assert (H4 : ioreq.data_is_ptr (vio (response_world 1)) = 0)
    by reflexivity.
  assert (H5 : mmio_in_progress (hvm_vcpu (response_world 1)) = 0)
    by reflexivity.
  repeat (split; [assumption|]).
  exact (proj1 (proj2 (@hvm_io_assist_read_completion xen_abi unit
                         (demo_collaborators true 0 0) (response_world 1)
                         H1 H2 H3 H4 H5))).
Defined.

Lemma hvm_io_assist_no_read_result_witness :
  ioreq.state (vio (response_world 0)) = @STATE_IORESP_READY xen_abi /\
  ioreq.dir (vio (response_world 0)) <> @IOREQ_READ xen_abi /\
  io_data (hvm_vcpu (snd (@hvm_io_assist xen_abi unit
                            (demo_collaborators true 0 0)
                            (response_world 0))))
  = io_data (hvm_vcpu (response_world 0)).
Proof.
  assert (H1 : ioreq.state (vio (response_world 0))
               = @STATE_IORESP_READY xen_abi) by reflexivity.
  assert (H2 : ioreq.dir (vio (response_world 0)) <> @IOREQ_READ xen_abi)
    by crunch.
  repeat (split; [assumption|]).
  exact (proj1 (proj2 (proj2 (proj2
           (@hvm_io_assist_no_read_result xen_abi unit
              (demo_collaborators true 0 0) (response_world 0)
              H1 (or_intror (or_introl H2))))))).
Defined.

Lemma handle_mmio_outcomes_witness :
  fst (fst (@hvm_emulate_one unit (demo_collaborators true 0 0)
              (set_trace (trace (demo_world 0 0)
                          ++ [call_hvm_emulate_prepare]) (demo_world 0 0))))
  <> @X86EMUL_UNHANDLEABLE xen_abi /\
  fst (@handle_mmio xen_abi unit (demo_collaborators true 0 0)
         (demo_world 0 0)) = 1.
Proof.
  assert (H : fst (fst (@hvm_emulate_one unit (demo_collaborators true 0 0)
                          (set_trace (trace (demo_world 0 0)
                                      ++ [call_hvm_emulate_prepare])
                                     (demo_world 0 0))))
              <> @X86EMUL_UNHANDLEABLE xen_abi) by crunch.
  split; [exact H|].
  exact (proj1 (proj2 (@handle_mmio_outcomes xen_abi unit
                         (demo_collaborators true 0 0) (demo_world 0 0))
                      H)).
Defined.

Lemma send_pio_req_handled_inline_witness :
  fst (@hvm_portio_intercept unit handling_collaborators
         (@pio_issued xen_abi unit 0x3F8 1 1 0 1 0 0 (demo_world 0 0)))
  <> 0 /\
  0 <= @STATE_IORESP_READY xen_abi < 2 ^ 4 /\
  exists evs,
    trace (snd (@send_pio_req xen_abi unit handling_collaborators
                  0x3F8 1 1 0 1 0 0 (demo_world 0 0)))
    = trace (@pio_issued xen_abi unit 0x3F8 1 1 0 1 0 0 (demo_world 0 0))
      ++ call_hvm_portio_intercept :: evs
      ++ [call_vcpu_end_shutdown_deferral] /\
    count_events is_handoff evs = O.
Proof.
  assert (H1 : fst (@hvm_portio_intercept unit handling_collaborators
                      (@pio_issued xen_abi unit 0x3F8 1 1 0 1 0 0
                         (demo_world 0 0))) <> 0) by (simpl; lia).
  assert (H2 : 0 <= @STATE_IORESP_READY xen_abi < 2 ^ 4) by (simpl; lia).
  repeat (split; [assumption|]).
  destruct (@send_pio_req_handled_inline xen_abi unit handling_collaborators
              0x3F8 1 1 0 1 0 0 (demo_world 0 0) H1 H2)
    as (evs & Ht & Hh & _).
  exists evs. auto.
Defined.

Lemma send_mmio_req_intercept_order_witness :
  0 <= @STATE_IORESP_READY xen_abi < 2 ^ 4 /\
  fst (@hvm_mmio_intercept unit handling_collaborators
         (@mmio_issued xen_abi unit 1 0xA0000 1 4 0 0 0 0 (demo_world 0 0)))
  <> 0 /\
  exists evs,
    trace (snd (@send_mmio_req xen_abi unit handling_collaborators
                  1 0xA0000 1 4 0 0 0 0 (demo_world 0 0)))
    = trace (@mmio_issued xen_abi unit 1 0xA0000 1 4 0 0 0 0
               (demo_world 0 0))
      ++ call_hvm_mmio_intercept :: evs
      ++ [call_vcpu_end_shutdown_deferral] /\
    count_events is_buffered_intercept evs = O.
Proof.
  assert (H2 : 0 <= @STATE_IORESP_READY xen_abi < 2 ^ 4) by (simpl; lia).
  assert (H1 : fst (@hvm_mmio_intercept unit handling_collaborators
                      (@mmio_issued xen_abi unit 1 0xA0000 1 4 0 0 0 0
                         (demo_world 0 0))) <> 0) by (simpl; lia).
  repeat (split; [assumption|]).
  destruct (proj1 (@send_mmio_req_intercept_order xen_abi unit
                     handling_collaborators 1 0xA0000 1 4 0 0 0 0
                     (demo_world 0 0) H2) H1)
    as (evs & Ht & Hb & _).
  exists evs. auto.
Defined.


Lemma dpci_ioport_intercept_no_mapping_witness :
  (forall g,
     g ∈ @g2m_ioport_list unit (demo_collaborators true 0 0)
           (env (demo_world 0 0)) ->
     ~ (g2m_ioport.gport g <= u32 (ioreq.addr vga_write4)
        < u32 (g2m_ioport.gport g + g2m_ioport.np g))) /\
  @dpci_ioport_intercept xen_abi unit (demo_collaborators true 0 0)
     vga_write4 (demo_world 0 0)
  = ((0, vga_write4), demo_world 0 0).
Proof.
  assert (H : forall g,
            g ∈ @g2m_ioport_list unit (demo_collaborators true 0 0)
                  (env (demo_world 0 0)) ->
            ~ (g2m_ioport.gport g <= u32 (ioreq.addr vga_write4)
               < u32 (g2m_ioport.gport g + g2m_ioport.np g))).
  { intros g Hin. simpl in Hin. apply list_elem_of_singleton in Hin.
    subst g. vm_compute. intros [_ Hc]. discriminate Hc. }
  split; [exact H|].
  exact (@dpci_ioport_intercept_no_mapping xen_abi unit
           (demo_collaborators true 0 0) vga_write4 (demo_world 0 0) H).
Defined.

Lemma g2m_lookup_first_match_witness :
  (forall g', g' ∈ [g2m_ioport.mk 0x100 0x500 0x10] ->
     ~ (g2m_ioport.gport g' <= 0x305
        < u32 (g2m_ioport.gport g' + g2m_ioport.np g'))) /\
  g2m_ioport.gport (g2m_ioport.mk 0x300 0x3F0 0x10) <= 0x305
    < u32 (g2m_ioport.gport (g2m_ioport.mk 0x300 0x3F0 0x10)
           + g2m_ioport.np (g2m_ioport.mk 0x300 0x3F0 0x10)) /\
  g2m_lookup 0x305
    ([g2m_ioport.mk 0x100 0x500 0x10]
     ++ g2m_ioport.mk 0x300 0x3F0 0x10 :: [g2m_ioport.mk 0x300 0x700 0x10])
  = Some (g2m_ioport.mk 0x300 0x3F0 0x10).
Proof.
  assert (H1 : forall g', g' ∈ [g2m_ioport.mk 0x100 0x500 0x10] ->
            ~ (g2m_ioport.gport g' <= 0x305
               < u32 (g2m_ioport.gport g' + g2m_ioport.np g'))).
  { intros g Hin. apply list_elem_of_singleton in Hin.
    subst g. vm_compute. intros [_ Hc]. discriminate Hc. }
  assert (H2 : g2m_ioport.gport (g2m_ioport.mk 0x300 0x3F0 0x10) <= 0x305
               < u32 (g2m_ioport.gport (g2m_ioport.mk 0x300 0x3F0 0x10)
                      + g2m_ioport.np (g2m_ioport.mk 0x300 0x3F0 0x10)))
    by crunch.
  split; [exact H1 | split; [exact H2|]].
  exact (g2m_lookup_first_match 0x305 _ _ _ H1 H2).
Defined.

Lemma host_port_in_host_range_witness :
  let g := g2m_ioport.mk 0x300 0x3F0 0x10 in
  0 <= g2m_ioport.gport g < 2 ^ 32 /\
  0 <= g2m_ioport.mport g /\ 0 <= g2m_ioport.np g < 2 ^ 32 /\
  g2m_ioport.gport g <= 0x305
    < u32 (g2m_ioport.gport g + g2m_ioport.np g) /\
  g2m_ioport.mport g + g2m_ioport.np g <= 2 ^ 32 /\
  host_port 0x305 g - g2m_ioport.mport g = 0x305 - g2m_ioport.gport g.
Proof.
  cbv zeta.
  assert (H1 : 0 <= g2m_ioport.gport (g2m_ioport.mk 0x300 0x3F0 0x10)
               < 2 ^ 32) by (simpl; lia).
  assert (H2 : 0 <= g2m_ioport.mport (g2m_ioport.mk 0x300 0x3F0 0x10))
    by (simpl; lia).
  assert (H3 : 0 <= g2m_ioport.np (g2m_ioport.mk 0x300 0x3F0 0x10)
               < 2 ^ 32) by (simpl; lia).
  assert (H4 : g2m_ioport.gport (g2m_ioport.mk 0x300 0x3F0 0x10) <= 0x305
               < u32 (g2m_ioport.gport (g2m_ioport.mk 0x300 0x3F0 0x10)
                      + g2m_ioport.np (g2m_ioport.mk 0x300 0x3F0 0x10)))
    by crunch.
  assert (H5 : g2m_ioport.mport (g2m_ioport.mk 0x300 0x3F0 0x10)
               + g2m_ioport.np (g2m_ioport.mk 0x300 0x3F0 0x10) <= 2 ^ 32)
    by (simpl; lia).
  repeat (split; [assumption|]).
  exact (proj1 (proj2 (host_port_in_host_range 0x305 _ H1 H2 H3 H4) H5)).
Defined.

Lemma dpci_ioport_intercept_unsupported_width_witness :
  let c := demo_collaborators true 0x42 0 in
  let w := demo_world 0 0 in
  g2m_lookup (u32 (ioreq.addr inq_305)) (@g2m_ioport_list unit c (env w))
  = Some (g2m_ioport.mk 0x300 0x3F0 0x10) /\
  @ioports_access_permitted unit c (env w) 0x3F5 0x3FC = true /\
  ~ port_width (ioreq.size inq_305) /\
  fst (@dpci_ioport_intercept xen_abi unit c inq_305 w) = (1, inq_305).
Proof.
  cbv zeta.
  assert (Hg : g2m_lookup (u32 (ioreq.addr inq_305))
                 (@g2m_ioport_list unit (demo_collaborators true 0x42 0)
                    (env (demo_world 0 0)))
               = Some (g2m_ioport.mk 0x300 0x3F0 0x10)) by reflexivity.
  assert (Hp : @ioports_access_permitted unit (demo_collaborators true 0x42 0)
                 (env (demo_world 0 0)) 0x3F5 0x3FC = true) by reflexivity.
  assert (Hw : ~ port_width (ioreq.size inq_305))
    by (unfold port_width; simpl; lia).
  repeat (split; [assumption|]).
  exact (proj1 (@dpci_ioport_intercept_unsupported_width xen_abi unit
                  (demo_collaborators true 0x42 0) inq_305 (demo_world 0 0)
                  _ Hg Hp Hw)).
Defined.

Lemma dpci_ioport_read_immediate_witness :
  ioreq.data_is_ptr rep_inb_305 = 0 /\ port_width (ioreq.size rep_inb_305) /\
  0 <= ioreq.count rep_inb_305 /\
  ioreq.count rep_inb_305 * ioreq.size rep_inb_305 < 2 ^ 64 /\
  trace (snd (@dpci_ioport_read unit (demo_collaborators true 0x42 0)
                0x3F5 rep_inb_305 (demo_world 0 0)))
  = trace (demo_world 0 0)
    ++ replicate (Z.to_nat (ioreq.count rep_inb_305))
         (in_event (ioreq.size rep_inb_305) 0x3F5).
Proof.
  assert (H1 : ioreq.data_is_ptr rep_inb_305 = 0) by reflexivity.
  assert (H2 : port_width (ioreq.size rep_inb_305))
    by (left; reflexivity).
  assert (H3 : 0 <= ioreq.count rep_inb_305) by (simpl; lia).
  assert (H4 : ioreq.count rep_inb_305 * ioreq.size rep_inb_305 < 2 ^ 64)
    by (simpl; lia).
  repeat (split; [assumption|]).
  exact (proj1 (@dpci_ioport_read_immediate unit
                  (demo_collaborators true 0x42 0) 0x3F5 rep_inb_305
                  (demo_world 0 0) H1 H2 H3 H4)).
Defined.

Lemma dpci_ioport_write_immediate_witness :
  ioreq.data_is_ptr rep_outw_305 = 0 /\ 0 < ioreq.size rep_outw_305 /\
  0 <= ioreq.count rep_outw_305 /\
  ioreq.count rep_outw_305 * ioreq.size rep_outw_305 < 2 ^ 64 /\
  trace (snd (@dpci_ioport_write unit (demo_collaborators true 0 0)
                0x3F5 rep_outw_305 (demo_world 0 0)))
  = trace (demo_world 0 0)
    ++ replicate (Z.to_nat (ioreq.count rep_outw_305))
         (write_round_event (ioreq.size rep_outw_305)
            (ioreq.data rep_outw_305) 0x3F5).
Proof.
  assert (H1 : ioreq.data_is_ptr rep_outw_305 = 0) by reflexivity.
  assert (H2 : 0 < ioreq.size rep_outw_305) by (simpl; lia).
  assert (H3 : 0 <= ioreq.count rep_outw_305) by (simpl; lia).
  assert (H4 : ioreq.count rep_outw_305 * ioreq.size rep_outw_305 < 2 ^ 64)
    by (simpl; lia).
  repeat (split; [assumption|]).
  exact (@dpci_ioport_write_immediate unit (demo_collaborators true 0 0)
           0x3F5 rep_outw_305 (demo_world 0 0) H1 H2 H3 H4).
Defined.

Lemma dpci_ioport_write_copy_failure_witness :
  let c := demo_collaborators true 0 1 in
  ioreq.data_is_ptr rep_outsw_305 <> 0 /\
  0 < u64 (ioreq.count rep_outsw_305 * ioreq.size rep_outsw_305) /\
  fst (fst (@hvm_copy_from_guest_phys unit c
              (u64 (ioreq.data rep_outsw_305 + 0))
              (int32 (ioreq.size rep_outsw_305)) (env (demo_world 0 0))))
  <> 0 /\
  trace (snd (@dpci_ioport_write unit c 0x3F5 rep_outsw_305
                (demo_world 0 0)))
  = trace (demo_world 0 0)
    ++ [call_hvm_copy_from_guest_phys
          (u64 (ioreq.data rep_outsw_305 + 0))
          (int32 (ioreq.size rep_outsw_305));
        gdprintk "Error: couldn't copy from hvm phys"].
Proof.
  cbv zeta.
  assert (H1 : ioreq.data_is_ptr rep_outsw_305 <> 0) by (simpl; lia).
  assert (H2 : 0 < u64 (ioreq.count rep_outsw_305
                        * ioreq.size rep_outsw_305)) by crunch.
  assert (H3 : fst (fst (@hvm_copy_from_guest_phys unit
                           (demo_collaborators true 0 1)
                           (u64 (ioreq.data rep_outsw_305 + 0))
                           (int32 (ioreq.size rep_outsw_305))
                           (env (demo_world 0 0)))) <> 0)
    by (simpl; lia).
  repeat (split; [assumption|]).
  exact (@dpci_ioport_write_copy_failure unit (demo_collaborators true 0 1)
           0x3F5 rep_outsw_305 (demo_world 0 0) H1 H2 H3).
Defined.

Lemma dpci_ioport_loops_end_witness :
  0 <= ioreq.count rep_outsw_305 /\
  fst (@dpci_ioport_write_loop unit (demo_collaborators true 0 0)
         (loop_fuel rep_outsw_305) 0x3F5
         (u64 (ioreq.count rep_outsw_305 * ioreq.size rep_outsw_305)) 0
         rep_outsw_305 (demo_world 0 0)) = true.
Proof.
  assert (H : 0 <= ioreq.count rep_outsw_305) by (simpl; lia).
  split; [exact H|].
  exact (proj2 (@dpci_ioport_loops_end unit (demo_collaborators true 0 0)
                  0x3F5 rep_outsw_305 (demo_world 0 0) H)).
Defined.
